(** * rename_tool: batch renaming of files and folders

    A shallow embedding of [rename_tool.py] and the properties of its
    target resolution, rename planning and plan execution.

    Conventions of the embedding.
    - A Python [str] is the list of its Unicode code points ([N]); [len],
      indexing and slicing therefore count code points, as Python does.
    - [pathlib.Path] is modelled in its POSIX flavour ([PurePosixPath]: the
      drive is always empty), as the pair of a root and the list of the
      remaining components.
    - The ambient [sys.platform] is an explicit argument.
    - The operating system (existence tests, directory listing, access
      probes, [os.rename]) is an interface, [FileSystem]; the state of the
      file system is threaded explicitly through the code that changes it.
    - Console output ([print]) is not modelled. *)

From Stdlib Require Import ZArith Lia Ascii String.
From stdpp Require Import base numbers countable list sets gmap pretty.

Local Open Scope Z_scope.

(** ** Python strings *)

Abbreviation char := N (only parsing).
Abbreviation str := (list N) (only parsing).

(** An ASCII literal as a Python string. *)
Definition py (s : string) : str := N_of_ascii <$> list_ascii_of_string s.

Definition len {A} (s : list A) : Z := Z.of_nat (length s).

(** [PySlice_AdjustIndices] for a one-sided slice with step 1: the position
    in [0..n] that the bound [i] of [s[:i]] or [s[i:]] denotes. *)
Definition slice_index (n : nat) (i : Z) : nat :=
  if i <? 0 then Z.to_nat (Z.max 0 (Z.of_nat n + i))
  else Z.to_nat (Z.min i (Z.of_nat n)).

(** [s[:i]] *)
Definition slice_to {A} (s : list A) (i : Z) : list A :=
  take (slice_index (length s) i) s.

(** [s[i:]] *)
Definition slice_from {A} (s : list A) (i : Z) : list A :=
  drop (slice_index (length s) i) s.

(** [s.startswith(p)] *)
Definition startswith (s p : str) : bool := bool_decide (p `prefix_of` s).

(** [c in s] for a one-character [c] *)
Definition contains (s : str) (c : char) : bool := bool_decide (c ∈ s).

Fixpoint rfind_from (c : char) (s : str) (i acc : Z) : Z :=
  match s with
  | [] => acc
  | x :: s' => rfind_from c s' (i + 1) (if decide (x = c) then i else acc)
  end.

(** [s.rfind(c)]: the highest index of [c] in [s], or [-1]. *)
Definition rfind (s : str) (c : char) : Z := rfind_from c s 0 (-1).

(** [s.split(sep)] for a one-character separator. *)
Fixpoint split (sep : char) (s : str) : list str :=
  match s with
  | [] => [[]]
  | c :: s' =>
      if decide (c = sep) then [] :: split sep s'
      else match split sep s' with
           | w :: ws => (c :: w) :: ws
           | [] => [[c]]
           end
  end.

(** [sep.join(l)] *)
Fixpoint join (sep : str) (l : list str) : str :=
  match l with
  | [] => []
  | [x] => x
  | x :: l' => x ++ sep ++ join sep l'
  end.

(** [str.isspace] on one code point ([Py_UNICODE_ISSPACE]). *)
Definition isspace (c : char) : bool :=
  ((9 <=? c) && (c <=? 13) || (28 <=? c) && (c <=? 32)
   || (c =? 133) || (c =? 160) || (c =? 5760)
   || (8192 <=? c) && (c <=? 8202) || (c =? 8232) || (c =? 8233)
   || (c =? 8239) || (c =? 8287) || (c =? 12288))%N.

Fixpoint lstrip (s : str) : str :=
  match s with
  | c :: s' => if isspace c then lstrip s' else s
  | [] => []
  end.

(** [s.strip()] *)
Definition strip (s : str) : str := reverse (lstrip (reverse (lstrip s))).

(** ** Regular expressions: a character class

    Every pattern of the program is one bracketed character class, given
    here by the list of its members. *)

(** [re.findall(pattern, s)]: the matches, each a one-character string. *)
Definition re_findall (class : str) (s : str) : list str :=
  (λ c, [c]) <$> filter (λ c, c ∈ class) s.

(** [re.sub(pattern, '', s)] *)
Definition re_sub_empty (class : str) (s : str) : str :=
  filter (λ c, c ∉ class) s.

(** [list(set(l))]: the distinct elements of [l], in the set's order. *)
Definition list_set `{Countable A} (l : list A) : list A :=
  elements (list_to_set l : gset A).

(** ** Platforms and their illegal characters *)

Inductive os_type := windows | macos | linux.

(** The members of the three character classes of the source: the nine
    characters that Windows forbids (code point 34 is the double quote),
    colon and slash for macOS, slash for Linux. *)
Definition ILLEGAL_CHARS (os : os_type) : str :=
  match os with
  | windows => py "<>:" ++ [34%N] ++ py "/\|?*"
  | macos => py ":/"
  | linux => py "/"
  end.

Definition get_os_type (sys_platform : str) : os_type :=
  if startswith sys_platform (py "win") then windows
  else if startswith sys_platform (py "darwin") then macos
  else linux.

Definition filter_illegal_chars (sys_platform : str) (content : str)
  : str * list str :=
  let os_type := get_os_type sys_platform in
  let pattern := ILLEGAL_CHARS os_type in
  let illegal_chars := re_findall pattern content in
  let illegal_chars := list_set illegal_chars in
  let filtered_content := re_sub_empty pattern content in
  (filtered_content, illegal_chars).

(** ** pathlib, POSIX flavour *)

Module pathlib.

Record Path := mkPath { root : str; tail : list str }.

#[global] Instance Path_eq_dec : EqDecision Path.
Proof. solve_decision. Defined.

#[global] Instance Path_countable : Countable Path.
Proof.
  apply (inj_countable' (λ p, (root p, tail p)) (λ x, mkPath x.1 x.2)).
  by intros [].
Defined.

(** [posixpath.splitroot]: the root ([''], ['/'] or ['//']) and the rest.
    [take 1 p] is [p[:1]], [take 1 (drop 1 p)] is [p[1:2]] and
    [take 1 (drop 2 p)] is [p[2:3]]. *)
Definition splitroot (p : str) : str * str :=
  if negb (bool_decide (take 1 p = [47%N])) then ([], p)
  else if negb (bool_decide (take 1 (drop 1 p) = [47%N]))
          || bool_decide (take 1 (drop 2 p) = [47%N])
  then ([47%N], drop 1 p)
  else (take 2 p, drop 2 p).

(** A component is kept when it is neither empty nor ['.']. *)
Definition kept (x : str) : bool :=
  negb (bool_decide (x = [])) && negb (bool_decide (x = [46%N])).

(** [Path(s)] *)
Definition of_str (s : str) : Path :=
  let '(root, rel) := splitroot s in
  mkPath root (List.filter kept (split 47%N rel)).

(** [p.name] *)
Definition name (p : Path) : str := List.last (tail p) [].

(** The suffix of a final component: [name[i:]] for the last dot [i],
    when the dot is neither the first nor the last character. *)
Definition suffix_of (name : str) : str :=
  let i := rfind name 46%N in
  if (0 <? i) && (i <? len name - 1) then slice_from name i else [].

Definition stem_of (name : str) : str :=
  let i := rfind name 46%N in
  if (0 <? i) && (i <? len name - 1) then slice_to name i else name.

(** [p.suffix] and [p.stem] *)
Definition suffix (p : Path) : str := suffix_of (name p).
Definition stem (p : Path) : str := stem_of (name p).

(** [p.parent] *)
Definition parent (p : Path) : Path :=
  match tail p with
  | [] => p
  | _ => mkPath (root p) (removelast (tail p))
  end.

(** [p / key] *)
Definition joinpath (p : Path) (key : str) : Path :=
  let q := of_str key in
  if bool_decide (root q = []) then mkPath (root p) (tail p ++ tail q)
  else q.

(** [str(p)] *)
Definition to_str (p : Path) : str :=
  match root p, tail p with
  | [], [] => [46%N]
  | r, t => r ++ join [47%N] t
  end.

(** The invariant of every path object: no component is empty, is ['.']
    or holds a separator. *)
Definition wf (p : Path) : Prop :=
  Forall (λ x, x ≠ [] ∧ x ≠ [46%N] ∧ 47%N ∉ x) (tail p).

End pathlib.

Abbreviation Path := pathlib.Path (only parsing).

(** ** Targets and new names *)

Inductive target_type := folder | file.

#[export] Instance target_type_eq_dec : EqDecision target_type.
Proof. solve_decision. Defined.

#[export] Instance target_type_countable : Countable target_type.
Proof.
  apply (inj_countable' (λ t, match t with folder => true | file => false end)
           (λ b : bool, if b then folder else file)).
  by intros [].
Defined.

(** The dictionary [{'path': Path, 'type': 'folder/file'}]. *)
Record target := mkTarget { path : Path; type : target_type }.

#[export] Instance target_eq_dec : EqDecision target.
Proof. solve_decision. Defined.

#[export] Instance target_countable : Countable target.
Proof.
  apply (inj_countable' (λ t, (path t, type t)) (λ x, mkTarget x.1 x.2)).
  by intros [].
Defined.

(** The three positions the operator may type: the words for start, end
    and middle. *)
Definition pos_start : str := [24320; 22836]%N.
Definition pos_end : str := [26411; 23614]%N.
Definition pos_middle : str := [20013; 38388]%N.

(** The splice shared by both branches of [generate_new_name], on the full
    name of a folder or the stem of a file. *)
Definition insert_content (position : str) (custom_content : str)
    (insert_index : Z) (original : str) : str :=
  if bool_decide (position = pos_start) then custom_content ++ original
  else if bool_decide (position = pos_end) then original ++ custom_content
  else
    let insert_index :=
      if insert_index >=? len original then len original / 2
      else insert_index in
    slice_to original insert_index ++ custom_content
      ++ slice_from original insert_index.

Definition generate_new_name (target : target) (position : str)
    (custom_content : str) (insert_index : Z) : str :=
  let target_path := path target in
  let target_type := type target in
  match target_type with
  | folder =>
      let original_name := pathlib.name target_path in
      insert_content position custom_content insert_index original_name
  | file =>
      let original_stem := pathlib.stem target_path in
      let original_suffix := pathlib.suffix target_path in
      let new_stem :=
        insert_content position custom_content insert_index original_stem in
      new_stem ++ original_suffix
  end.

(** ** The operating system *)

(** What a system call raises: [PermissionError], or any other
    [Exception] with its text. *)
Inductive exn := PermissionError | OtherException (msg : str).

(** The calls the program makes, on a state [FS] of the file system and the
    clock. Queries read the state; [touch], [unlink] and [rename] change
    it or raise. *)
Class FileSystem (FS : Type) := {
  fs_resolve : FS → Path → exn + Path;
  fs_exists : FS → Path → bool;
  fs_is_dir : FS → Path → bool;
  fs_is_file : FS → Path → bool;
  fs_iterdir : FS → Path → exn + list Path;
  fs_glob : FS → Path → str → exn + list Path;
  fs_touch : FS → Path → exn + FS;
  fs_unlink : FS → Path → exn + FS;
  fs_open_rb : FS → Path → exn + unit;
  os_rename : FS → Path → Path → exn + FS;
  time_time : FS → Z
}.

(** The mode [get_target_list] is called with: ['folder'], ['file'] or
    ['all']. *)
Inductive target_mode := mode_folder | mode_file | mode_all.

#[export] Instance target_mode_eq_dec : EqDecision target_mode.
Proof. solve_decision. Defined.

(** The distinct messages of the two validators. *)
Inductive diagnostic :=
  | EmptyPath
  | BadFormat (e : exn)
  | NotExists (p : Path)
  | NotFolder (p : Path)
  | NotFile (p : Path)
  | NoAccess (p : Path).

(** One plan entry: the dictionary appended to [rename_plan]. *)
Record plan := mkPlan {
  original_path : Path;
  original_name : str;
  new_name : str;
  new_path : Path;
  plan_type : target_type;
  duplicate : bool
}.

Definition type_str (t : target_type) : str :=
  match t with folder => py "folder" | file => py "file" end.

(** [str(n)] for an integer. *)
Definition int_str (n : Z) : str := py (pretty n).

Section program.
Context {FS : Type} `{!FileSystem FS}.

(** *** Computations that read and change the system, or raise *)

Definition M (A : Type) : Type := FS → FS * (exn + A).

Definition ret {A} (x : A) : M A := λ fs, (fs, inr x).

Definition bind {A B} (m : M A) (k : A → M B) : M B := λ fs,
  match m fs with
  | (fs', inr x) => k x fs'
  | (fs', inl e) => (fs', inl e)
  end.

Notation "'do' x <- m ; k" := (bind m (λ x, k))
  (at level 10, x name, m at level 100, k at level 200).

(** A query. *)
Definition ask {A} (q : FS → A) : M A := λ fs, (fs, inr (q fs)).

(** A query that may raise. *)
Definition query {A} (q : FS → exn + A) : M A := λ fs, (fs, q fs).

(** A call that changes the state or raises. *)
Definition command (c : FS → exn + FS) : M unit := λ fs,
  match c fs with
  | inr fs' => (fs', inr tt)
  | inl e => (fs, inl e)
  end.

(** [try: m except Exception as e: h e] *)
Definition try_except {A} (m : M A) (h : exn → M A) : M A := λ fs,
  match m fs with
  | (fs', inl e) => h e fs'
  | r => r
  end.

(** [try: m except PermissionError: h] *)
Definition try_except_permission {A} (m : M A) (h : M A) : M A :=
  try_except m (λ e, match e with
                     | PermissionError => h
                     | _ => λ fs, (fs, inl e)
                     end).

(** A [for] loop that collects what each round appends. *)
Fixpoint for_each {A B} (l : list A) (body : A → M (list B)) : M (list B) :=
  match l with
  | [] => ret []
  | x :: l' => do ys <- body x; do zs <- for_each l' body; ret (ys ++ zs)
  end.

(** *** Validation *)

Definition probe_name : M str :=
  do t <- ask time_time; ret (py ".tmp_" ++ int_str t).

Definition validate_root_path (path : str) : M (diagnostic + str) :=
  if bool_decide (path = []) then ret (inl EmptyPath)
  else
    do r <- try_except
              (do p <- query (λ fs, fs_resolve fs (pathlib.of_str path));
               ret (inr p))
              (λ e, ret (inl (BadFormat e)));
    match r with
    | inl d => ret (inl d)
    | inr abs_path =>
        do ex <- ask (λ fs, fs_exists fs abs_path);
        if negb ex then ret (inl (NotExists abs_path))
        else
          do d <- ask (λ fs, fs_is_dir fs abs_path);
          if negb d then ret (inl (NotFolder abs_path))
          else
            try_except_permission
              (do n <- probe_name;
               let test_file := pathlib.joinpath abs_path n in
               do _ <- command (λ fs, fs_touch fs test_file);
               do _ <- command (λ fs, fs_unlink fs test_file);
               ret (inr (pathlib.to_str abs_path)))
              (ret (inl (NoAccess abs_path)))
    end.

Definition validate_single_path (path : str) (target_type : target_type)
  : M (diagnostic + str) :=
  if bool_decide (path = []) then ret (inl EmptyPath)
  else
    do r <- try_except
              (do p <- query (λ fs, fs_resolve fs (pathlib.of_str path));
               ret (inr p))
              (λ e, ret (inl (BadFormat e)));
    match r with
    | inl d => ret (inl d)
    | inr abs_path =>
        do ex <- ask (λ fs, fs_exists fs abs_path);
        if negb ex then ret (inl (NotExists abs_path))
        else
          do d <- ask (λ fs, fs_is_dir fs abs_path);
          do f <- ask (λ fs, fs_is_file fs abs_path);
          if bool_decide (target_type = folder) && negb d
          then ret (inl (NotFolder abs_path))
          else if bool_decide (target_type = file) && negb f
          then ret (inl (NotFile abs_path))
          else
            try_except_permission
              (match target_type with
               | folder =>
                   do n <- probe_name;
                   let test_file := pathlib.joinpath abs_path n in
                   do _ <- command (λ fs, fs_touch fs test_file);
                   do _ <- command (λ fs, fs_unlink fs test_file);
                   ret (inr (pathlib.to_str abs_path))
               | file =>
                   do _ <- query (λ fs, fs_open_rb fs abs_path);
                   ret (inr (pathlib.to_str abs_path))
               end)
              (ret (inl (NoAccess abs_path)))
    end.

(** *** Target resolution *)

(** The last step of [get_target_list]: duplicates are dropped through a
    set of the dictionaries' items; an empty result is reported. *)
Definition dedup_targets (target_list : list target) : M (list target) :=
  let target_list := list_set target_list in
  if bool_decide (target_list = []) then ret [] else ret target_list.

Definition get_target_list (input_path : str) (target_mode : target_mode)
  : M (list target) :=
  match target_mode with
  | mode_all =>
      do v <- validate_root_path input_path;
      match v with
      | inl _ => ret []
      | inr abs_root_path =>
          let root_path := pathlib.of_str abs_root_path in
          do items <- query (λ fs, fs_iterdir fs root_path);
          do target_list <- for_each items (λ item,
            do d <- ask (λ fs, fs_is_dir fs item);
            if d then
              do p <- query (λ fs, fs_resolve fs item);
              ret [mkTarget p folder]
            else
              do f <- ask (λ fs, fs_is_file fs item);
              if f then
                do p <- query (λ fs, fs_resolve fs item);
                ret [mkTarget p file]
              else ret []);
          if bool_decide (target_list = []) then ret []
          else dedup_targets target_list
      end
  | _ =>
      let target_type :=
        if bool_decide (target_mode = mode_folder) then folder else file in
      if contains input_path 44%N then
        let path_list := strip <$> split 44%N input_path in
        do target_list <- for_each path_list (λ p,
          do v <- validate_single_path p target_type;
          match v with
          | inr abs_path => ret [mkTarget (pathlib.of_str abs_path) target_type]
          | inl _ => ret []
          end);
        dedup_targets target_list
      else if contains input_path 42%N then
        do r <- try_except
          (let parent_dir := pathlib.parent (pathlib.of_str input_path) in
           let pattern := pathlib.name (pathlib.of_str input_path) in
           do items <- query (λ fs, fs_glob fs parent_dir pattern);
           do target_list <- for_each items (λ item,
             do d <- ask (λ fs, fs_is_dir fs item);
             do f <- ask (λ fs, fs_is_file fs item);
             if bool_decide (target_type = folder) && d
                || bool_decide (target_type = file) && f
             then
               do p <- query (λ fs, fs_resolve fs item);
               ret [mkTarget p target_type]
             else ret []);
           ret (Some target_list))
          (λ _, ret None);
        match r with
        | Some target_list => dedup_targets target_list
        | None => ret []
        end
      else
        do v <- validate_single_path input_path target_type;
        match v with
        | inr abs_path =>
            dedup_targets [mkTarget (pathlib.of_str abs_path) target_type]
        | inl _ => ret []
        end
  end.

(** *** Planning *)

Definition check_duplicate_name (fs : FS) (target_path : Path)
    (new_name : str) : bool :=
  let parent_dir := pathlib.parent target_path in
  let new_path := pathlib.joinpath parent_dir new_name in
  fs_exists fs new_path.

(** One round of the preview loop of [rename_core]: the entry appended to
    [rename_plan], and the new value of [duplicate_flag]. *)
Definition preview_step (fs : FS) (position filtered_content : str)
    (insert_index : Z) (acc : list plan * bool) (target : target)
  : list plan * bool :=
  let '(rename_plan, duplicate_flag) := acc in
  let target_path := path target in
  let target_type := type target in
  let original_name := pathlib.name target_path in
  let new_name :=
    generate_new_name target position filtered_content insert_index in
  let duplicate_flag :=
    if check_duplicate_name fs target_path new_name then true
    else duplicate_flag in
  (rename_plan ++ [ {| original_path := target_path;
                       original_name := original_name;
                       new_name := new_name;
                       new_path :=
                         pathlib.joinpath (pathlib.parent target_path) new_name;
                       plan_type := target_type;
                       duplicate := check_duplicate_name fs target_path new_name |} ],
   duplicate_flag).

(** The entry that [preview_step] appends for one target. *)
Definition plan_entry (fs : FS) (position filtered_content : str)
    (insert_index : Z) (target : target) : plan :=
  let new_name :=
    generate_new_name target position filtered_content insert_index in
  {| original_path := path target;
     original_name := pathlib.name (path target);
     new_name := new_name;
     new_path := pathlib.joinpath (pathlib.parent (path target)) new_name;
     plan_type := type target;
     duplicate := check_duplicate_name fs (path target) new_name |}.

(** The preview loop of [rename_core]: the plan and [duplicate_flag]. *)
Definition rename_core_preview (fs : FS) (target_list : list target)
    (position filtered_content : str) (insert_index : Z)
  : list plan * bool :=
  foldl (preview_step fs position filtered_content insert_index)
    ([], false) target_list.

(** *** Execution *)

Record exec_state := mkExec {
  exec_fs : FS;
  success_count : Z;
  fail_count : Z;
  log_records : list str
}.

(** The line appended to [log_records] after a rename. *)
Definition log_line (current_time operator position : str)
    (insert_index : Z) (plan : plan) : str :=
  py "[" ++ current_time ++ [93; 32; 25805; 20316; 20154; 65306]%N
    ++ operator ++ [32; 124; 32; 31867; 22411; 65306]%N
    ++ type_str (plan_type plan) ++ [32; 124; 32; 20301; 32622; 65306]%N
    ++ position ++ [32; 124; 32; 25554; 20837; 32034; 24341; 65306]%N
    ++ (if bool_decide (position = pos_middle) then int_str insert_index
        else [26080%N])
    ++ [32; 124; 32; 21407; 36335; 24452; 65306]%N
    ++ pathlib.to_str (original_path plan)
    ++ [32; 124; 32; 26032; 36335; 24452; 65306]%N
    ++ pathlib.to_str (new_path plan).

(** One round of the execution loop of [rename_core]. *)
Definition execute_step (current_time operator position : str)
    (insert_index : Z) (st : exec_state) (plan : plan) : exec_state :=
  if duplicate plan then
    mkExec (exec_fs st) (success_count st) (fail_count st + 1)
      (log_records st)
  else
    match os_rename (exec_fs st) (original_path plan) (new_path plan) with
    | inr fs' =>
        mkExec fs' (success_count st + 1) (fail_count st)
          (log_records st
             ++ [log_line current_time operator position insert_index plan])
    | inl PermissionError =>
        mkExec (exec_fs st) (success_count st) (fail_count st + 1)
          (log_records st)
    | inl (OtherException e) =>
        mkExec (exec_fs st) (success_count st) (fail_count st + 1)
          (log_records st)
    end.

(** The execution loop of [rename_core]. *)
Definition rename_core_execute (fs : FS) (rename_plan : list plan)
    (current_time operator position : str) (insert_index : Z)
  : exec_state :=
  foldl (execute_step current_time operator position insert_index)
    (mkExec fs 0 0 []) rename_plan.

End program.

Arguments exec_state FS : clear implicits.
Arguments M FS A : clear implicits.

(** ** A small file system to run the program on

    Every entry is listed with its kind; the entries in [locked] cannot be
    renamed or opened, and nothing can be created under a locked folder.
    Paths are absolute and there are no links, so [resolve] changes
    nothing. *)

Module sim.

Record state := mkState {
  entries : list target;
  locked : list Path;
  clock : Z
}.

Definition paths (s : state) : list Path := path <$> entries s.

Definition children (s : state) (p : Path) : list Path :=
  filter (λ q, pathlib.tail q ≠ [] ∧ pathlib.parent q = p) (paths s).

Definition touch (s : state) (p : Path) : exn + state :=
  if bool_decide (pathlib.parent p ∈ locked s) then inl PermissionError
  else if bool_decide (p ∈ paths s) then inr s
  else inr (mkState (entries s ++ [mkTarget p file]) (locked s) (clock s)).

Definition unlink (s : state) (p : Path) : exn + state :=
  if bool_decide (pathlib.parent p ∈ locked s) then inl PermissionError
  else if bool_decide (p ∈ paths s) then
    inr (mkState (filter (λ t, path t ≠ p) (entries s)) (locked s) (clock s))
  else inl (OtherException (py "No such file or directory")).

Definition glob (s : state) (p : Path) (pattern : str) : exn + list Path :=
  if bool_decide (pattern = []) then
    inl (OtherException (py "Unacceptable pattern"))
  else
    inr (filter (λ q, pattern = py "*" ∨ pathlib.name q = pattern)
           (children s p)).

Definition rename (s : state) (src dst : Path) : exn + state :=
  if bool_decide (src ∈ locked s) then inl PermissionError
  else if bool_decide (src ∈ paths s) then
    inr (mkState
           ((λ t, if bool_decide (path t = src) then mkTarget dst (type t)
                  else t)
              <$> filter (λ t, path t ≠ dst) (entries s))
           (locked s) (clock s))
  else inl (OtherException (py "No such file or directory")).

#[global] Instance file_system : FileSystem state := {|
  fs_resolve _ p := inr p;
  fs_exists s p := bool_decide (p ∈ paths s);
  fs_is_dir s p := bool_decide (mkTarget p folder ∈ entries s);
  fs_is_file s p := bool_decide (mkTarget p file ∈ entries s);
  fs_iterdir s p := inr (children s p);
  fs_glob := glob;
  fs_touch := touch;
  fs_unlink := unlink;
  fs_open_rb s p :=
    if bool_decide (p ∈ locked s) then inl PermissionError else inr tt;
  os_rename := rename;
  time_time := clock
|}.

(** [/data] holds the folder [Draft] and the files [notes.txt], [a.txt],
    [b.txt], [c.txt] and [c_v2.txt]; [b.txt] is locked. *)
Definition data : state :=
  mkState
    [ mkTarget (pathlib.of_str (py "/data")) folder;
      mkTarget (pathlib.of_str (py "/data/Draft")) folder;
      mkTarget (pathlib.of_str (py "/data/notes.txt")) file;
      mkTarget (pathlib.of_str (py "/data/a.txt")) file;
      mkTarget (pathlib.of_str (py "/data/b.txt")) file;
      mkTarget (pathlib.of_str (py "/data/c.txt")) file;
      mkTarget (pathlib.of_str (py "/data/c_v2.txt")) file ]
    [ pathlib.of_str (py "/data/b.txt") ]
    1700000000.

Definition file_target (s : string) : target :=
  mkTarget (pathlib.of_str (py s)) file.

(** [/project] holds the folder [Draft] and the file [notes.txt]. *)
Definition project : state :=
  mkState
    [ mkTarget (pathlib.of_str (py "/project")) folder;
      mkTarget (pathlib.of_str (py "/project/Draft")) folder;
      mkTarget (pathlib.of_str (py "/project/notes.txt")) file ]
    []
    1700000000.

End sim.

(** ** The prompts of [rename_core]

    A prompt loop reads the lines the operator types, in turn, until one is
    accepted; it returns the accepted value and the lines not yet read, or
    [None] when the input ends first ([input] raises [EOFError]). *)

(** The loop that asks for the position. *)
Fixpoint read_position (inputs : list str) : option (str * list str) :=
  match inputs with
  | [] => None
  | line :: rest =>
      let position := strip line in
      if bool_decide (position ∈ [pos_start; pos_end; pos_middle])
      then Some (position, rest)
      else read_position rest
  end.

(** The name shown as the example of the index prompt. *)
Definition sample_name (sample_target : target) : str :=
  match type sample_target with
  | file => pathlib.stem (path sample_target)
  | folder => pathlib.name (path sample_target)
  end.

Section index_prompt.
(** [int(s)], with [None] for [ValueError]. *)
Variable int : str → option Z.

(** The loop that asks for the index of a middle insertion. *)
Fixpoint read_index (sample_name : str) (inputs : list str)
  : option (Z * list str) :=
  match inputs with
  | [] => None
  | line :: rest =>
      let index_input := strip line in
      if bool_decide (index_input = []) then Some (len sample_name / 2, rest)
      else
        match int index_input with
        | Some insert_index =>
            if insert_index <? 0 then read_index sample_name rest
            else Some (insert_index, rest)
        | None => read_index sample_name rest
        end
  end.

(** The third step of [rename_core]: the index is asked for the middle
    position only, and is [0] otherwise. *)
Definition read_insert_index (position : str) (target_list : list target)
    (inputs : list str) : option (Z * list str) :=
  if bool_decide (position = pos_middle) then
    match target_list with
    | sample_target :: _ => read_index (sample_name sample_target) inputs
    | [] => None
    end
  else Some (0, inputs).

End index_prompt.

(** The loop that asks for the content and filters it. *)
Fixpoint read_content (sys_platform : str) (inputs : list str)
  : option (str * list str) :=
  match inputs with
  | [] => None
  | line :: rest =>
      let custom_content := strip line in
      if bool_decide (custom_content = []) then read_content sys_platform rest
      else
        let '(filtered_content, illegal_chars) :=
          filter_illegal_chars sys_platform custom_content in
        if negb (bool_decide (illegal_chars = []))
           && bool_decide (filtered_content = [])
        then read_content sys_platform rest
        else Some (filtered_content, rest)
  end.

(** The text handed to [save_operation_log]: the records joined by line
    feeds. *)
Definition log_content (log_records : list str) : str :=
  join [10%N] log_records.

(** Unsigned decimal literals in ASCII digits, the part of [int] that the
    examples use. *)
Definition decimal (s : str) : option Z :=
  if bool_decide (s = []) then None
  else
    foldl (λ acc c, n ← acc;
                    if ((48 <=? c) && (c <=? 57))%N
                    then Some (10 * n + Z.of_N (c - 48)) else None)
      (Some 0) s.

(** ** Predicates on computations and paths *)

(** A computation that leaves the state of the system as it found it. *)
Definition readonly {FS A} (m : M FS A) : Prop :=
  ∀ fs fs' r, m fs = (fs', r) → fs' = fs.

(** The roots that [pathlib.splitroot] produces. *)
Definition posix_root (p : Path) : Prop :=
  pathlib.root p = [] ∨ pathlib.root p = [47%N]
  ∨ pathlib.root p = [47%N; 47%N].

(** ** A file system mounted read-only

    The entries of [sim], on a volume where every call that would change
    something raises [OSError] (read-only file system). *)

Module rofs.

Record state := mkState { mounted : sim.state }.

Definition denied : exn := OtherException (py "Read-only file system").

#[global] Instance file_system : FileSystem state := {|
  fs_resolve _ p := inr p;
  fs_exists s p := fs_exists (mounted s) p;
  fs_is_dir s p := fs_is_dir (mounted s) p;
  fs_is_file s p := fs_is_file (mounted s) p;
  fs_iterdir s p := fs_iterdir (mounted s) p;
  fs_glob s := fs_glob (mounted s);
  fs_touch _ _ := inl denied;
  fs_unlink _ _ := inl denied;
  fs_open_rb s p := fs_open_rb (mounted s) p;
  os_rename _ _ _ := inl denied;
  time_time s := time_time (mounted s)
|}.

End rofs.

(** * Properties *)

(** ** Sets as lists *)

Lemma list_set_NoDup `{Countable A} (l : list A) : NoDup (list_set l).
Proof. apply NoDup_elements. Qed.

Lemma elem_of_list_set `{Countable A} (l : list A) (x : A) :
  x ∈ list_set l ↔ x ∈ l.
Proof. unfold list_set. by rewrite elem_of_elements, elem_of_list_to_set. Qed.

(** ** The legality filter *)

Lemma filter_maximal {A} (P : A → Prop) `{!∀ x, Decision (P x)}
    (l k : list A) :
  k `sublist_of` l → Forall P k → k `sublist_of` filter P l.
Proof.
  induction 1 as [|x k l _ IH|x k l _ IH]; intros HP.
  - constructor.
  - apply Forall_cons in HP as [Hx HP].
    rewrite filter_cons_True by done. constructor. by apply IH.
  - rewrite filter_cons. case_decide; [constructor|]; by apply IH.
Qed.

Lemma get_os_type_onto (os : os_type) :
  ∃ sys_platform, get_os_type sys_platform = os.
Proof.
  destruct os;
    [exists (py "win32") | exists (py "darwin") | exists (py "linux")];
    by vm_compute.
Qed.

Lemma slash_illegal (os : os_type) : 47%N ∈ ILLEGAL_CHARS os.
Proof. destruct os; vm_compute; set_solver. Qed.

Lemma filtered_legal (sys_platform content : str) (c : char) :
  c ∈ (filter_illegal_chars sys_platform content).1 →
  c ∉ ILLEGAL_CHARS (get_os_type sys_platform).
Proof. cbn. unfold re_sub_empty. rewrite list_elem_of_filter. tauto. Qed.

(** C7. The filter returns the input with exactly the characters of the
    platform's illegal class removed (the greatest subsequence of the input
    free of them), and the removed characters without repetition; under
    the Windows rules [a:b*c] gives [abc] and the set of [:] and [*]. The
    filter is total, and an empty filtered string is one of its results. *)
Theorem filter_illegal_chars_correct (sys_platform content : str) :
  let class := ILLEGAL_CHARS (get_os_type sys_platform) in
  let filtered := (filter_illegal_chars sys_platform content).1 in
  let removed := (filter_illegal_chars sys_platform content).2 in
  (filtered `sublist_of` content
   ∧ Forall (λ c, c ∉ class) filtered
   ∧ ∀ k, k `sublist_of` content → Forall (λ c, c ∉ class) k →
          k `sublist_of` filtered)
  ∧ (NoDup removed
     ∧ ∀ s, s ∈ removed ↔ ∃ c, s = [c] ∧ c ∈ content ∧ c ∈ class)
  ∧ (∃ removed',
       filter_illegal_chars (py "win32") (py "a:b*c") = (py "abc", removed')
       ∧ removed' ≡ₚ [py ":"; py "*"])
  ∧ (filter_illegal_chars (py "win32") (py ":*")).1 = [].
Proof.
  cbn. unfold re_sub_empty, re_findall. split_and!.
  - apply sublist_filter.
  - apply Forall_forall. intros c. rewrite list_elem_of_filter. tauto.
  - apply filter_maximal.
  - apply list_set_NoDup.
  - intros s. rewrite elem_of_list_set, list_elem_of_fmap. split.
    + intros (c & -> & [Hi Hc]%list_elem_of_filter). eauto.
    + intros (c & -> & Hc & Hi). exists c. by rewrite list_elem_of_filter.
  - eexists. split; [by vm_compute|]. done.
  - by vm_compute.
Qed.

(** C8. Filtering is idempotent on the filtered string, whatever the text
    and the platform; each of the three rule-sets is the one of some
    platform. *)
Theorem filter_illegal_chars_idempotent (sys_platform x : str) :
  (filter_illegal_chars sys_platform
     (filter_illegal_chars sys_platform x).1).1
  = (filter_illegal_chars sys_platform x).1
  ∧ ∀ os, ∃ sys_platform', get_os_type sys_platform' = os.
Proof.
  split; [|apply get_os_type_onto].
  cbn. unfold re_sub_empty.
  induction x as [|c x IH]; [done|].
  rewrite filter_cons. case_decide as Hc; [|done].
  by rewrite filter_cons_True, IH.
Qed.

(** ** Strings *)

Lemma slice_to_from {A} (s : list A) (i : Z) :
  slice_to s i ++ slice_from s i = s.
Proof. apply take_drop. Qed.

Lemma slice_index_nonneg (n : nat) (i : Z) :
  0 ≤ i → slice_index n i = Z.to_nat (Z.min i (Z.of_nat n)).
Proof. intros. unfold slice_index. by rewrite (proj2 (Z.ltb_ge i 0)). Qed.

Lemma rfind_from_absent (c : char) (s : str) (i acc : Z) :
  c ∉ s → rfind_from c s i acc = acc.
Proof.
  revert i acc. induction s as [|x s IH]; intros i acc Hc; [done|].
  apply not_elem_of_cons in Hc as [Hx Hs]. cbn.
  rewrite decide_False by done. by apply IH.
Qed.

Lemma rfind_from_last (c : char) (a b : str) (i acc : Z) :
  c ∉ b → rfind_from c (a ++ c :: b) i acc = i + len a.
Proof.
  intros Hb. revert i acc. induction a as [|x a IH]; intros i acc; cbn.
  - rewrite decide_True by done. rewrite rfind_from_absent by done.
    unfold len. cbn. lia.
  - rewrite IH. unfold len. cbn. lia.
Qed.

Lemma last_occurrence (c : char) (s : str) :
  c ∈ s → ∃ a b, s = a ++ c :: b ∧ c ∉ b.
Proof.
  induction s as [|x s IH]; [by intros ?%elem_of_nil|].
  destruct (decide (c ∈ s)) as [Hs|Hs].
  - intros _. destruct (IH Hs) as (a & b & -> & Hb). by exists (x :: a), b.
  - intros [->|?]%elem_of_cons; [|done]. by exists [], s.
Qed.

Lemma split_absent (sep : char) (s : str) : sep ∉ s → split sep s = [s].
Proof.
  induction s as [|c s IH]; [done|].
  intros [Hc Hs]%not_elem_of_cons. cbn.
  rewrite decide_False by done. by rewrite IH.
Qed.

(** ** Stem and suffix *)

Lemma suffix_stem_dotted (a b : str) :
  46%N ∉ b → a ≠ [] → b ≠ [] →
  pathlib.suffix_of (a ++ 46%N :: b) = 46%N :: b
  ∧ pathlib.stem_of (a ++ 46%N :: b) = a.
Proof.
  intros Hb Ha Hnb. unfold pathlib.suffix_of, pathlib.stem_of, rfind.
  rewrite rfind_from_last by done.
  assert (0 < len a) by (destruct a; [done|unfold len; cbn; lia]).
  assert (0 < len b) by (destruct b; [done|unfold len; cbn; lia]).
  assert (len (a ++ 46%N :: b) = len a + 1 + len b) as Hlen
    by (unfold len; rewrite length_app; cbn; lia).
  rewrite (proj2 (Z.ltb_lt 0 (0 + len a))) by lia.
  rewrite (proj2 (Z.ltb_lt (0 + len a) _)) by lia. cbn.
  unfold slice_from, slice_to. rewrite slice_index_nonneg by lia.
  replace (Z.to_nat _) with (length a) by (unfold len in *; lia).
  by rewrite drop_app_length, take_app_length.
Qed.

Lemma suffix_stem_cases (name : str) :
  (pathlib.suffix_of name = [] ∧ pathlib.stem_of name = name)
  ∨ ∃ a b, name = a ++ 46%N :: b ∧ (46%N ∉ b) ∧ a ≠ [] ∧ b ≠ []
           ∧ pathlib.suffix_of name = 46%N :: b ∧ pathlib.stem_of name = a.
Proof.
  destruct (decide (46%N ∈ name)) as [Hd|Hd].
  - destruct (last_occurrence _ _ Hd) as (a & b & -> & Hb).
    destruct (decide (a = [])) as [->|Ha]; [left|].
    { unfold pathlib.suffix_of, pathlib.stem_of, rfind.
      by rewrite rfind_from_last. }
    destruct (decide (b = [])) as [->|Hnb]; [left|].
    { unfold pathlib.suffix_of, pathlib.stem_of, rfind.
      rewrite rfind_from_last by done.
      replace (len (a ++ [46%N]) - 1) with (0 + len a)
        by (unfold len; rewrite length_app; cbn; lia).
      by rewrite Z.ltb_irrefl, andb_false_r. }
    right. exists a, b. split_and!; try done; by apply suffix_stem_dotted.
  - left. unfold pathlib.suffix_of, pathlib.stem_of, rfind.
    by rewrite rfind_from_absent.
Qed.

Lemma stem_suffix (name : str) :
  pathlib.stem_of name ++ pathlib.suffix_of name = name.
Proof.
  destruct (suffix_stem_cases name)
    as [[-> ->]|(a & b & Hn & _ & _ & _ & -> & ->)].
  - apply app_nil_r.
  - done.
Qed.

Lemma path_stem_suffix (p : Path) :
  pathlib.stem p ++ pathlib.suffix p = pathlib.name p.
Proof. apply stem_suffix. Qed.

(** ** New names *)

Lemma insert_content_split (position c : str) (i : Z) (s : str) :
  ∃ a b, s = a ++ b ∧ insert_content position c i s = a ++ c ++ b.
Proof.
  unfold insert_content. repeat case_bool_decide.
  - exists [], s. done.
  - exists s, []. by rewrite !app_nil_r.
  - eexists _, _. split; [|done]. by rewrite slice_to_from.
Qed.

Lemma insert_content_length (position c : str) (i : Z) (s : str) :
  length (insert_content position c i s) = (length s + length c)%nat.
Proof.
  destruct (insert_content_split position c i s) as (a & b & -> & ->).
  rewrite !length_app. lia.
Qed.

Lemma insert_content_nil (position : str) (i : Z) (s : str) :
  insert_content position [] i s = s.
Proof. by destruct (insert_content_split position [] i s) as (a & b & -> & ->). Qed.

Lemma insert_content_middle_clamped (c : str) (i : Z) (s : str) :
  len s ≤ i →
  insert_content pos_middle c i s
  = take (length s / 2) s ++ c ++ drop (length s / 2) s.
Proof.
  intros Hi. unfold insert_content.
  rewrite !bool_decide_eq_false_2 by done.
  rewrite (proj2 (Z.geb_le i (len s))) by done.
  unfold slice_to, slice_from, len in *.
  rewrite slice_index_nonneg by (apply Z.div_pos; lia).
  replace (Z.to_nat _) with (length s / 2)%nat; [done|].
  rewrite Z.min_l by (apply Z.div_le_upper_bound; lia).
  by rewrite <- (Nat2Z.inj_div _ 2), Nat2Z.id.
Qed.

Lemma generate_new_name_split (t : target) (position c : str) (i : Z) :
  ∃ a b ext,
    pathlib.name (path t) = a ++ b ++ ext
    ∧ generate_new_name t position c i = a ++ c ++ b ++ ext
    ∧ match type t with
      | folder => ext = []
      | file => ext = pathlib.suffix (path t) ∧ pathlib.stem (path t) = a ++ b
      end.
Proof.
  unfold generate_new_name. destruct (type t).
  - destruct (insert_content_split position c i (pathlib.name (path t)))
      as (a & b & Hs & ->).
    exists a, b, []. by rewrite !app_nil_r.
  - destruct (insert_content_split position c i (pathlib.stem (path t)))
      as (a & b & Hs & ->).
    exists a, b, (pathlib.suffix (path t)). split_and!; try done.
    + by rewrite app_assoc, <- Hs, path_stem_suffix.
    + by rewrite <- !app_assoc.
Qed.

Lemma generate_new_name_length (t : target) (position c : str) (i : Z) :
  length (generate_new_name t position c i)
  = (length (pathlib.name (path t)) + length c)%nat.
Proof.
  destruct (generate_new_name_split t position c i)
    as (a & b & ext & -> & -> & _).
  rewrite !length_app. lia.
Qed.

Lemma generate_new_name_nil (t : target) (position : str) (i : Z) :
  generate_new_name t position [] i = pathlib.name (path t).
Proof.
  by destruct (generate_new_name_split t position [] i)
    as (a & b & ext & -> & -> & _).
Qed.

(** C1 (as amended). For a file and every policy, the stem splits in two
    parts around the insertion point, the new name is the first part, the
    content, the second part and the original extension, so it ends with
    the original extension; and when the original name has an extension,
    the new name has the same extension and the spliced stem as its
    stem. *)
Theorem extension_preserved (p : Path) (position c : str) (i : Z) :
  let new_name := generate_new_name (mkTarget p file) position c i in
  ∃ a b,
    pathlib.stem p = a ++ b
    ∧ pathlib.name p = a ++ b ++ pathlib.suffix p
    ∧ new_name = a ++ c ++ b ++ pathlib.suffix p
    ∧ (pathlib.suffix p ≠ [] →
       pathlib.suffix_of new_name = pathlib.suffix p
       ∧ pathlib.stem_of new_name = a ++ c ++ b).
Proof.
  cbn. destruct (generate_new_name_split (mkTarget p file) position c i)
    as (a & b & ext & Hn & Hg & -> & Hs); cbn in *.
  exists a, b. split_and!; try done. intros Hext.
  rewrite Hg. unfold pathlib.suffix, pathlib.stem in *.
  destruct (suffix_stem_cases (pathlib.name p))
    as [[He _]|(a' & b' & _ & Hb' & Ha' & Hnb' & He & Hst)]; [done|].
  rewrite He. rewrite Hst in Hs. subst a'.
  rewrite !(app_assoc _ _ (46%N :: b')), (app_assoc a).
  apply suffix_stem_dotted; try done.
  intros Hnil%(f_equal length). rewrite !length_app in Hnil.
  apply Ha'. destruct a, b; cbn in Hnil; (done || lia).
Qed.

Lemma extension_preserved_witness :
  pathlib.suffix_of
    (generate_new_name (mkTarget (pathlib.of_str (py "/data/notes.txt")) file)
       pos_end (py "_v2") 0)
  = py ".txt".
Proof.
  destruct (extension_preserved (pathlib.of_str (py "/data/notes.txt"))
              pos_end (py "_v2") 0) as (a & b & _ & _ & _ & Hext).
  destruct Hext as [Hsuf _]; [by vm_compute|].
  rewrite Hsuf. by vm_compute.
Defined.

(** C1 as stated fails: a file without an extension gets one from
    content that holds a dot, and such content passes the filter of every
    platform. *)
Lemma extension_preserved_counterexample :
  let p := pathlib.of_str (py "/data/README") in
  let new_name := generate_new_name (mkTarget p file) pos_end (py ".bak") 0 in
  (∀ sys_platform, (filter_illegal_chars sys_platform (py ".bak")).1 = py ".bak")
  ∧ pathlib.suffix p = []
  ∧ new_name = py "README.bak"
  ∧ pathlib.suffix_of new_name = py ".bak"
  ∧ pathlib.suffix_of new_name ≠ pathlib.suffix p.
Proof.
  split_and!; try by vm_compute.
  intros sys_platform. cbn. by destruct (get_os_type sys_platform).
Qed.

(** C2. In the middle position an index at or beyond the length of the
    transformed name (the full name of a folder, the stem of a file) is
    replaced by half that length before the splice; for a file with stem
    [abc] and index 10 the new stem is [a], the content, [bc]. *)
Theorem middle_index_clamped (t : target) (c : str) (i : Z) :
  let s := match type t with
           | folder => pathlib.name (path t)
           | file => pathlib.stem (path t)
           end in
  let ext := match type t with
             | folder => []
             | file => pathlib.suffix (path t)
             end in
  (len s ≤ i →
   generate_new_name t pos_middle c i
   = take (length s / 2) s ++ c ++ drop (length s / 2) s ++ ext)
  ∧ (type t = file → pathlib.stem (path t) = py "abc" →
     generate_new_name t pos_middle c 10
     = py "a" ++ c ++ py "bc" ++ pathlib.suffix (path t)).
Proof.
  cbn. split.
  - intros Hi. unfold generate_new_name. destruct (type t).
    + rewrite insert_content_middle_clamped by done. by rewrite !app_nil_r.
    + rewrite insert_content_middle_clamped by done. by rewrite <- !app_assoc.
  - intros Ht Hs. unfold generate_new_name. rewrite Ht, Hs.
    rewrite insert_content_middle_clamped by (by vm_compute).
    by rewrite <- !app_assoc.
Qed.

Lemma middle_index_clamped_witness :
  generate_new_name (mkTarget (pathlib.of_str (py "/data/abc.txt")) file)
    pos_middle (py "_v2") 10
  = py "a_v2bc.txt"
  ∧ generate_new_name (mkTarget (pathlib.of_str (py "/data/Draft")) folder)
      pos_middle (py "X") 5
    = py "DrXaft".
Proof.
  split.
  - rewrite (proj2 (middle_index_clamped
                      (mkTarget (pathlib.of_str (py "/data/abc.txt")) file)
                      (py "_v2") 10)); by vm_compute.
  - rewrite (proj1 (middle_index_clamped
                      (mkTarget (pathlib.of_str (py "/data/Draft")) folder)
                      (py "X") 5)); by vm_compute.
Defined.

(** C10. With non-empty content the new name is longer than the original
    name by the length of the content, so it differs from the original
    name. *)
Theorem new_name_longer (t : target) (position c : str) (i : Z) :
  c ≠ [] →
  let new_name := generate_new_name t position c i in
  let original_name := pathlib.name (path t) in
  length new_name = (length original_name + length c)%nat
  ∧ (length original_name < length new_name)%nat
  ∧ new_name ≠ original_name.
Proof.
  intros Hc. cbn. pose proof (generate_new_name_length t position c i) as Hl.
  assert (0 < length c)%nat by (destruct c; [done|cbn; lia]).
  split_and!; [done|lia|]. intros Heq. rewrite Heq in Hl. lia.
Qed.

Lemma new_name_longer_witness :
  length (generate_new_name
            (mkTarget (pathlib.of_str (py "/data/notes.txt")) file)
            pos_start (py "v2_") 0) = 12%nat
  ∧ generate_new_name (mkTarget (pathlib.of_str (py "/data/notes.txt")) file)
      pos_start (py "v2_") 0 ≠ py "notes.txt".
Proof.
  destruct (new_name_longer
              (mkTarget (pathlib.of_str (py "/data/notes.txt")) file)
              pos_start (py "v2_") 0) as (Hlen & _ & Hne); [by vm_compute|].
  split; [by rewrite Hlen|exact Hne].
Defined.

(** ** Paths *)

Lemma splitroot_relative (s : str) :
  47%N ∉ s → pathlib.splitroot s = ([], s).
Proof.
  intros Hs. unfold pathlib.splitroot.
  destruct s as [|c s]; [done|].
  apply not_elem_of_cons in Hs as [Hc _].
  rewrite bool_decide_eq_false_2; [done|]. cbn. congruence.
Qed.

Lemma of_str_component (s : str) :
  47%N ∉ s → s ≠ [] → s ≠ [46%N] → pathlib.of_str s = pathlib.mkPath [] [s].
Proof.
  intros Hs Hn Hd. unfold pathlib.of_str.
  rewrite splitroot_relative, split_absent by done. cbn.
  unfold pathlib.kept. by rewrite !bool_decide_eq_false_2.
Qed.

Lemma joinpath_component (p : Path) (s : str) :
  47%N ∉ s → s ≠ [] → s ≠ [46%N] →
  pathlib.joinpath p s = pathlib.mkPath (pathlib.root p) (pathlib.tail p ++ [s]).
Proof.
  intros. unfold pathlib.joinpath. by rewrite of_str_component.
Qed.

Lemma joinpath_nothing (p : Path) (s : str) :
  s = [] ∨ s = [46%N] → pathlib.joinpath p s = p.
Proof.
  intros [->| ->]; destruct p; unfold pathlib.joinpath; cbn;
    by rewrite app_nil_r.
Qed.

Lemma parent_joinpath_component (p : Path) (s : str) :
  47%N ∉ s → s ≠ [] → s ≠ [46%N] →
  pathlib.parent (pathlib.joinpath p s) = p.
Proof.
  intros. rewrite joinpath_component by done. unfold pathlib.parent. cbn.
  destruct p as [r t]. cbn. rewrite removelast_last.
  by destruct t.
Qed.

Lemma name_wf (p : Path) :
  pathlib.wf p →
  pathlib.tail p = [] ∧ pathlib.name p = []
  ∨ pathlib.tail p ≠ [] ∧ pathlib.name p ≠ [] ∧ pathlib.name p ≠ [46%N]
    ∧ 47%N ∉ pathlib.name p.
Proof.
  unfold pathlib.wf, pathlib.name. destruct p as [r t]. cbn.
  induction t as [|x t IH] using rev_ind; [by left|].
  intros [_ [(? & ? & ?) _]%Forall_cons]%Forall_app. right.
  rewrite last_last. split_and!; try done. by destruct t.
Qed.

Lemma of_str_wf (s : str) : pathlib.wf (pathlib.of_str s).
Proof.
  unfold pathlib.wf, pathlib.of_str. destruct (pathlib.splitroot s) as [r rel].
  cbn. apply Forall_forall. intros x Hx%list_elem_of_In%filter_In.
  destruct Hx as [Hx Hk]. unfold pathlib.kept in Hk.
  apply andb_true_iff in Hk as [H1%negb_true_iff%bool_decide_eq_false
                                H2%negb_true_iff%bool_decide_eq_false].
  split_and!; try done. clear H1 H2. revert x Hx.
  induction rel as [|c rel IH]; cbn; intros x Hx.
  - destruct Hx as [<-|[]]. apply not_elem_of_nil.
  - case_decide.
    + destruct Hx as [<-|Hx]; [apply not_elem_of_nil|by apply IH].
    + destruct (split 47%N rel) as [|w ws].
      * destruct Hx as [<-|[]]. by intros [?|?%elem_of_nil]%elem_of_cons.
      * destruct Hx as [<-|Hx]; [|apply IH; by right].
        apply not_elem_of_cons. split; [done|]. apply IH. by left.
Qed.

(** ** Planning *)

Section planning.
Context {FS : Type} `{!FileSystem FS}.
Implicit Types (fs : FS) (t : target) (item : plan).

Lemma preview_fold fs position c i targets acc :
  foldl (preview_step fs position c i) acc targets
  = (acc.1 ++ (plan_entry fs position c i <$> targets),
     acc.2 || existsb (λ t, check_duplicate_name fs (path t)
                              (generate_new_name t position c i)) targets).
Proof.
  revert acc. induction targets as [|t targets IH]; intros [pl fl]; cbn.
  - by rewrite app_nil_r, orb_false_r.
  - rewrite IH. cbn. rewrite <- app_assoc. f_equal.
    destruct (check_duplicate_name _ _ _); cbn; [|done].
    by rewrite orb_true_r.
Qed.

Lemma rename_core_preview_plan fs position c i targets :
  (rename_core_preview fs targets position c i).1
  = plan_entry fs position c i <$> targets.
Proof. unfold rename_core_preview. by rewrite preview_fold. Qed.

(** C3. An entry of the plan is flagged as colliding exactly when the
    parent folder of its original path, joined with its new name, exists
    in the file system the plan is built on. *)
Theorem collides_iff_exists fs targets position c i item :
  item ∈ (rename_core_preview fs targets position c i).1 →
  duplicate item = true
  ↔ fs_exists fs
      (pathlib.joinpath (pathlib.parent (original_path item)) (new_name item))
    = true.
Proof.
  rewrite rename_core_preview_plan.
  intros (t & -> & _)%list_elem_of_fmap. done.
Qed.

(** C6. With content that went through the legality filter, every entry
    planned for a target keeps the folder of the target: the parent of
    the new path is the parent of the original path. *)
Theorem no_cross_directory_move fs sys_platform raw targets position i item :
  Forall (λ t, pathlib.wf (path t)) targets →
  item ∈ (rename_core_preview fs targets position
            (filter_illegal_chars sys_platform raw).1 i).1 →
  pathlib.parent (new_path item) = pathlib.parent (original_path item).
Proof.
  intros Hwf. rewrite rename_core_preview_plan.
  intros (t & -> & Ht)%list_elem_of_fmap. cbn -[filter_illegal_chars].
  rewrite Forall_forall in Hwf. specialize (Hwf t Ht).
  assert (47%N ∉ (filter_illegal_chars sys_platform raw).1) as Hc.
  { intros Hin%filtered_legal. apply Hin, slash_illegal. }
  generalize dependent (filter_illegal_chars sys_platform raw).1.
  intros c Hc.
  pose proof (generate_new_name_length t position c i) as Hlen.
  pose proof (generate_new_name_nil t position i) as Hnil.
  destruct (generate_new_name_split t position c i)
    as (a & b & ext & Hn & Hg & _).
  remember (generate_new_name t position c i) as nn eqn:Hnn.
  destruct (name_wf _ Hwf) as [[Htl Hnm]|(Htl & Hne & Hnd & Hsl)].
  - assert (pathlib.parent (path t) = path t) as ->
      by (unfold pathlib.parent; by rewrite Htl).
    destruct (decide (nn = [] ∨ nn = [46%N])) as [Hj|Hj].
    + rewrite joinpath_nothing by done.
      unfold pathlib.parent. by rewrite Htl.
    + apply parent_joinpath_component; [|tauto|tauto].
      rewrite Hn in Hnm. apply app_eq_nil in Hnm as [-> [-> ->]%app_eq_nil].
      rewrite Hg. by rewrite !app_nil_r.
  - apply parent_joinpath_component.
    + rewrite Hg. rewrite Hn in Hsl.
      rewrite !not_elem_of_app in *. tauto.
    + intros ->. cbn in Hlen.
      destruct (pathlib.name (path t)); [done|cbn in Hlen; lia].
    + intros ->. cbn in Hlen. destruct c as [|x c'].
      * apply Hnd. by rewrite <- Hnil.
      * destruct (pathlib.name (path t)); [done|cbn in Hlen; lia].
Qed.

End planning.

(** ** Execution *)

Section execution.
Context {FS : Type} `{!FileSystem FS}.
Context (fs : FS) (current_time operator position : str) (insert_index : Z).
Implicit Types (item : plan) (pl : list plan).

Let run pl :=
  rename_core_execute fs pl current_time operator position insert_index.
Let line := log_line current_time operator position insert_index.

(** The state after an item that was not renamed. *)
Let failed (st : exec_state FS) : exec_state FS :=
  mkExec (exec_fs st) (success_count st) (fail_count st + 1) (log_records st).

(** The state after a rename that left the file system as [fs']. *)
Let renamed (st : exec_state FS) (fs' : FS) item : exec_state FS :=
  mkExec fs' (success_count st + 1) (fail_count st)
    (log_records st ++ [line item]).

Lemma run_snoc pl item :
  run (pl ++ [item])
  = execute_step current_time operator position insert_index (run pl) item.
Proof. unfold run, rename_core_execute. by rewrite foldl_app. Qed.

Lemma run_cons_app pre post :
  run (pre ++ post)
  = foldl (execute_step current_time operator position insert_index)
      (run pre) post.
Proof. unfold run, rename_core_execute. by rewrite foldl_app. Qed.

Lemma execute_step_cases (st : exec_state FS) item :
  (duplicate item = true
   ∧ execute_step current_time operator position insert_index st item
     = failed st)
  ∨ (duplicate item = false
     ∧ ∃ e, os_rename (exec_fs st) (original_path item) (new_path item)
            = inl e
            ∧ execute_step current_time operator position insert_index st item
              = failed st)
  ∨ (duplicate item = false
     ∧ ∃ fs', os_rename (exec_fs st) (original_path item) (new_path item)
              = inr fs'
              ∧ execute_step current_time operator position insert_index
                  st item
                = renamed st fs' item).
Proof.
  unfold execute_step. destruct (duplicate item); [by left|right].
  destruct (os_rename _ _ _) as [[|msg]|fs']; eauto.
Qed.

Lemma counts_total pl : success_count (run pl) + fail_count (run pl) = len pl.
Proof.
  induction pl as [|item pl IH] using rev_ind; [done|].
  rewrite run_snoc. unfold len in *. rewrite length_app. cbn.
  destruct (execute_step_cases (run pl) item)
    as [[_ ->]|[(_ & e & _ & ->)|(_ & fs' & _ & ->)]]; cbn; lia.
Qed.

(** C4. Every item of the plan is processed, whatever happened to the
    items before it: each item counts once, as a success or as a failure;
    after any prefix of the plan, an item whose rename raises leaves the
    file system as it was and counts as a failure, and an item whose
    rename succeeds is renamed, counted and logged. In a batch of three
    where only the second rename raises [PermissionError], the first and
    the third are renamed, with two successes and one failure. *)
Theorem failure_isolation :
  (∀ pl, success_count (run pl) + fail_count (run pl) = len pl)
  ∧ (∀ pre item e,
       duplicate item = false →
       os_rename (exec_fs (run pre)) (original_path item) (new_path item)
       = inl e →
       run (pre ++ [item]) = failed (run pre))
  ∧ (∀ pre item fs',
       duplicate item = false →
       os_rename (exec_fs (run pre)) (original_path item) (new_path item)
       = inr fs' →
       run (pre ++ [item]) = renamed (run pre) fs' item)
  ∧ (∀ p1 p2 p3 fs1 fs3,
       duplicate p1 = false → duplicate p2 = false → duplicate p3 = false →
       os_rename fs (original_path p1) (new_path p1) = inr fs1 →
       os_rename fs1 (original_path p2) (new_path p2) = inl PermissionError →
       os_rename fs1 (original_path p3) (new_path p3) = inr fs3 →
       run [p1; p2; p3] = mkExec fs3 2 1 [line p1; line p3]).
Proof.
  split_and!.
  - apply counts_total.
  - intros pre item e Hd He. rewrite run_snoc. unfold execute_step.
    rewrite Hd, He. by destruct e.
  - intros pre item fs' Hd Hr. rewrite run_snoc. unfold execute_step.
    by rewrite Hd, Hr.
  - intros p1 p2 p3 fs1 fs3 Hd1 Hd2 Hd3 H1 H2 H3.
    unfold run, rename_core_execute, execute_step. cbn.
    rewrite Hd1. cbn. rewrite H1. cbn. rewrite Hd2, H2. cbn.
    by rewrite Hd3, H3.
Qed.

(** C5. An item flagged as colliding is skipped: the file system stays as
    it was, whatever [os.rename] would have done, the failure count grows
    by one and the log is unchanged. A record is appended only for an
    item whose rename succeeded: the log holds, in plan order, the lines
    of a subsequence of the items that were not flagged, one per
    success. *)
Theorem colliding_items_skipped :
  (∀ pre item,
     duplicate item = true → run (pre ++ [item]) = failed (run pre))
  ∧ (∀ pre item,
       log_records (run (pre ++ [item])) ≠ log_records (run pre) →
       duplicate item = false
       ∧ ∃ fs', os_rename (exec_fs (run pre)) (original_path item)
                  (new_path item) = inr fs'
                ∧ run (pre ++ [item]) = renamed (run pre) fs' item)
  ∧ (∀ pl, ∃ done,
       done `sublist_of` filter (λ item, duplicate item = false) pl
       ∧ log_records (run pl) = line <$> done
       ∧ success_count (run pl) = len done
       ∧ fail_count (run pl) = len pl - len done).
Proof.
  split_and!.
  - intros pre item Hd. rewrite run_snoc. unfold execute_step.
    by rewrite Hd.
  - intros pre item Hlog. rewrite run_snoc in *.
    destruct (execute_step_cases (run pre) item)
      as [[_ Hs]|[(_ & e & _ & Hs)|(Hd & fs' & Hr & Hs)]];
      rewrite Hs in *; [done|done|eauto].
  - intros pl. induction pl as [|item pl IH] using rev_ind.
    { exists []. split_and!; by try constructor. }
    destruct IH as (done & Hsub & Hlog & Hok & Hko).
    rewrite run_snoc, filter_app. unfold len in *. rewrite length_app.
    destruct (execute_step_cases (run pl) item)
      as [[Hd ->]|[(Hd & e & _ & ->)|(Hd & fs' & _ & ->)]].
    + exists done. rewrite filter_cons_False by (by rewrite Hd).
      rewrite filter_nil, app_nil_r. cbn. split_and!; try done. lia.
    + exists done. cbn. split_and!; try done; [|lia].
      by apply sublist_inserts_r.
    + exists (done ++ [item]). rewrite filter_cons_True by done.
      rewrite filter_nil, fmap_app, length_app. cbn.
      split_and!; [|by rewrite Hlog|lia|lia].
      by apply sublist_app.
Qed.

End execution.

(** ** Target resolution *)

Section resolution.
Context {FS : Type} `{!FileSystem FS}.
Implicit Types (fs : FS) (l : list target).

Lemma bind_inr {A B} (m : M FS A) (k : A → M FS B) fs fs' (y : B) :
  bind m k fs = (fs', inr y) →
  ∃ x fs1, m fs = (fs1, inr x) ∧ k x fs1 = (fs', inr y).
Proof.
  unfold bind. destruct (m fs) as [fs1 [e|x]]; [done|]. eauto.
Qed.

Lemma ret_inr {A} (x y : A) fs fs' :
  ret x fs = (fs', inr y) → y = x.
Proof. unfold ret. congruence. Qed.

Lemma dedup_targets_NoDup (target_list : list target) fs fs' l :
  dedup_targets target_list fs = (fs', inr l) → NoDup l.
Proof.
  unfold dedup_targets. case_bool_decide; intros ->%ret_inr.
  - constructor.
  - apply list_set_NoDup.
Qed.

Lemma dedup_targets_elem_of (target_list : list target) fs fs' l t :
  dedup_targets target_list fs = (fs', inr l) → t ∈ l ↔ t ∈ target_list.
Proof.
  unfold dedup_targets. case_bool_decide as Hnil; intros ->%ret_inr.
  - rewrite <- (elem_of_list_set target_list), Hnil. done.
  - apply elem_of_list_set.
Qed.

(** C9. The last step of the resolver keeps every resolved target exactly
    once: its result has no duplicates and the same members as the list
    it is given. Whatever the input and the mode, a list returned by the
    resolver therefore holds no target twice: a path resolved more than
    once, with the same kind, gives one target. *)
Theorem targets_deduplicated :
  (∀ target_list fs fs' l,
     dedup_targets target_list fs = (fs', inr l) →
     NoDup l ∧ ∀ t, t ∈ l ↔ t ∈ target_list)
  ∧ (∀ (input_path : str) (mode : target_mode) fs fs' l,
       get_target_list input_path mode fs = (fs', inr l) →
       NoDup l ∧ ∀ i j t, l !! i = Some t → l !! j = Some t → i = j).
Proof.
  split.
  { intros target_list fs fs' l Hrun.
    eauto using dedup_targets_NoDup, dedup_targets_elem_of. }
  intros input_path mode fs fs' l Hrun.
  assert (NoDup l) as Hnd; [|split; [done|]].
  2: { intros i j t Hi Hj. by eapply NoDup_lookup. }
  unfold get_target_list in Hrun.
  destruct mode;
    repeat match type of Hrun with
      | bind _ _ _ = _ => apply bind_inr in Hrun as (? & ? & _ & Hrun)
      | ret _ _ = _ => apply ret_inr in Hrun as ->
      | dedup_targets _ _ = _ => apply dedup_targets_NoDup in Hrun
      | (if ?b then _ else _) _ = _ => destruct b
      | (match ?x with _ => _ end) _ = _ => destruct x
      end;
    first [exact Hrun | constructor].
Qed.

End resolution.

(** ** The program on the small file system *)

Lemma extension_example :
  generate_new_name (sim.file_target "/data/notes.txt") pos_end (py "_v2") 0
  = py "notes_v2.txt".
Proof. by vm_compute. Qed.

Lemma collides_iff_exists_witness :
  let item := plan_entry sim.data pos_end (py "_v2") 0
                (sim.file_target "/data/c.txt") in
  (duplicate item = true
   ↔ fs_exists sim.data
       (pathlib.joinpath (pathlib.parent (original_path item)) (new_name item))
     = true)
  ∧ duplicate item = true.
Proof.
  split; [|by vm_compute].
  apply (collides_iff_exists sim.data
           [sim.file_target "/data/a.txt"; sim.file_target "/data/c.txt"]
           pos_end (py "_v2") 0).
  rewrite rename_core_preview_plan. apply list_elem_of_fmap_2.
  apply list_elem_of_further, list_elem_of_here.
Defined.

Lemma no_cross_directory_move_witness :
  let item := plan_entry sim.data pos_start
                (filter_illegal_chars (py "linux") (py "../v2/")).1 0
                (sim.file_target "/data/notes.txt") in
  pathlib.parent (new_path item) = pathlib.of_str (py "/data")
  ∧ pathlib.parent (original_path item) = pathlib.of_str (py "/data").
Proof.
  cbv zeta. split; [|by vm_compute].
  rewrite (no_cross_directory_move sim.data (py "linux") (py "../v2/")
             [sim.file_target "/data/notes.txt"] pos_start 0).
  - by vm_compute.
  - constructor; [apply of_str_wf|constructor].
  - rewrite rename_core_preview_plan. apply list_elem_of_fmap_2.
    apply list_elem_of_here.
Defined.

Lemma failure_isolation_witness :
  let entry := plan_entry sim.data pos_end (py "_v2") 0 in
  let st := rename_core_execute sim.data
              [entry (sim.file_target "/data/a.txt");
               entry (sim.file_target "/data/b.txt");
               entry (sim.file_target "/data/notes.txt")]
              (py "2024-01-01 00:00:00") (py "operator") pos_end 0 in
  success_count st = 2 ∧ fail_count st = 1
  ∧ sim.paths (exec_fs st)
    = pathlib.of_str ∘ py
        <$> ["/data"; "/data/Draft"; "/data/notes_v2.txt"; "/data/a_v2.txt";
             "/data/b.txt"; "/data/c.txt"; "/data/c_v2.txt"]%string.
Proof.
  cbv zeta.
  destruct (failure_isolation sim.data (py "2024-01-01 00:00:00")
              (py "operator") pos_end 0) as (_ & _ & _ & Hthree).
  erewrite Hthree; [|reflexivity..]. by vm_compute.
Defined.

Lemma colliding_items_skipped_witness :
  let entry := plan_entry sim.data pos_end (py "_v2") 0 in
  let run pl := rename_core_execute sim.data pl
                  (py "2024-01-01 00:00:00") (py "operator") pos_end 0 in
  let st := run [entry (sim.file_target "/data/a.txt")] in
  let st' := run ([entry (sim.file_target "/data/a.txt")]
                  ++ [entry (sim.file_target "/data/c.txt")]) in
  exec_fs st' = exec_fs st ∧ log_records st' = log_records st
  ∧ success_count st' = 1 ∧ fail_count st' = 1.
Proof.
  cbv zeta.
  destruct (colliding_items_skipped sim.data (py "2024-01-01 00:00:00")
              (py "operator") pos_end 0) as (Hskip & _ & _).
  rewrite Hskip by (by vm_compute). by vm_compute.
Defined.

Lemma targets_deduplicated_witness :
  ∃ fs' l,
    get_target_list (py "/data/a.txt, /data/a.txt,/data/notes.txt") mode_file
      sim.data = (fs', inr l)
    ∧ l ≡ₚ [sim.file_target "/data/a.txt"; sim.file_target "/data/notes.txt"]
    ∧ NoDup l.
Proof.
  eexists _, _. split_and!; [by vm_compute| |].
  - first [reflexivity | apply perm_swap].
  - eapply (proj2 targets_deduplicated
              (py "/data/a.txt, /data/a.txt,/data/notes.txt") mode_file
              sim.data).
    by vm_compute.
Defined.

(** The scenario of a root folder with the folder [Draft] and the file
    [notes.txt], every entry renamed with [_v2] at the end: both renames
    succeed and both are logged. *)
Lemma end_to_end_scenario :
  ∃ fs1 target_list,
    get_target_list (py "/project") mode_all sim.project
    = (fs1, inr target_list)
    ∧ let pl := rename_core_preview fs1 target_list pos_end (py "_v2") 0 in
      let st := rename_core_execute fs1 pl.1 (py "2024-01-01 00:00:00")
                  (py "operator") pos_end 0 in
      new_name <$> pl.1 ≡ₚ [py "Draft_v2"; py "notes_v2.txt"]
      ∧ pl.2 = false
      ∧ success_count st = 2 ∧ fail_count st = 0
      ∧ length (log_records st) = 2%nat.
Proof.
  eexists _, _. split; [by vm_compute|].
  cbv zeta. split_and!; by vm_compute.
Qed.

(** * Further properties of the program *)

(** ** The legality filter *)

Lemma filter_keeps_all {A} (P : A → Prop) `{!∀ x, Decision (P x)}
    (l : list A) :
  Forall P l → filter P l = l.
Proof.
  induction 1 as [|x l Hx _ IH]; [done|].
  by rewrite filter_cons_True, IH.
Qed.

Lemma filter_same_length {A} (P : A → Prop) `{!∀ x, Decision (P x)}
    (l : list A) :
  length (filter P l) = length l → Forall P l.
Proof.
  induction l as [|x l IH]; [constructor|].
  rewrite filter_cons. pose proof (length_filter P l).
  case_decide; cbn; intros Hlen; [|lia].
  constructor; [done|]. apply IH. lia.
Qed.

Lemma re_findall_nil (class s : str) :
  re_findall class s = [] ↔ Forall (λ c, c ∉ class) s.
Proof.
  unfold re_findall. induction s as [|c s IH].
  - split; [constructor|done].
  - rewrite filter_cons, Forall_cons. case_decide as Hc; cbn.
    + split; [done|]. by intros [? _].
    + rewrite IH. tauto.
Qed.

Lemma list_set_nil `{Countable A} (l : list A) : list_set l = [] ↔ l = [].
Proof.
  split.
  - intros Hnil. destruct l as [|x l]; [done|].
    assert (x ∈ list_set (x :: l)) as Hx by (apply elem_of_list_set; left).
    rewrite Hnil in Hx. by apply elem_of_nil in Hx.
  - intros ->. apply elements_empty.
Qed.

Lemma illegal_subset_windows (os : os_type) (c : char) :
  c ∈ ILLEGAL_CHARS os → c ∈ ILLEGAL_CHARS windows.
Proof.
  destruct os; [done| |]; cbn; rewrite !elem_of_cons, !elem_of_nil; lia.
Qed.

Lemma illegal_subset_macos (c : char) :
  c ∈ ILLEGAL_CHARS linux → c ∈ ILLEGAL_CHARS macos.
Proof. cbn. rewrite !elem_of_cons, !elem_of_nil. lia. Qed.

(** X1. The filter reports removed characters exactly when it changed the
    text: the list of removed characters is empty if and only if the
    filtered text is the input; the filtered text is never longer than the
    input, and is the input as soon as it has its length. *)
Theorem filter_reports_iff_changed (sys_platform content : str) :
  let filtered := (filter_illegal_chars sys_platform content).1 in
  let removed := (filter_illegal_chars sys_platform content).2 in
  (removed = [] ↔ filtered = content)
  ∧ (length filtered ≤ length content)%nat
  ∧ (length filtered = length content ↔ filtered = content).
Proof.
  unfold filter_illegal_chars, re_sub_empty. cbn [fst snd].
  rewrite list_set_nil, re_findall_nil.
  split_and!.
  - split; [apply filter_keeps_all|].
    intros Heq. refine (filter_same_length _ _ _). by rewrite Heq.
  - apply length_filter.
  - split; [|by intros ->].
    intros Hlen. apply filter_keeps_all.
    by refine (filter_same_length _ _ _).
Qed.

(** X2. Filtering distributes over concatenation: the filtered text of
    [x ++ y] is the filtered text of [x] followed by that of [y], and a
    character is reported for [x ++ y] when it is reported for [x] or for
    [y]. *)
Theorem filter_concatenation (sys_platform x y : str) :
  (filter_illegal_chars sys_platform (x ++ y)).1
  = (filter_illegal_chars sys_platform x).1
    ++ (filter_illegal_chars sys_platform y).1
  ∧ ∀ s, s ∈ (filter_illegal_chars sys_platform (x ++ y)).2
         ↔ s ∈ (filter_illegal_chars sys_platform x).2
           ∨ s ∈ (filter_illegal_chars sys_platform y).2.
Proof.
  cbn. unfold re_sub_empty, re_findall. split; [apply filter_app|].
  intros s. rewrite !elem_of_list_set, filter_app, fmap_app.
  apply elem_of_app.
Qed.

(** X3. The three rule-sets are nested, Linux inside macOS inside
    Windows, so text filtered under the Windows rules passes the filter
    of every platform unchanged and with nothing reported. *)
Theorem windows_filter_strictest (sys_platform x : str) :
  (∀ c, c ∈ ILLEGAL_CHARS linux → c ∈ ILLEGAL_CHARS macos)
  ∧ (∀ c, c ∈ ILLEGAL_CHARS macos → c ∈ ILLEGAL_CHARS windows)
  ∧ filter_illegal_chars sys_platform
      (filter_illegal_chars (py "win32") x).1
    = ((filter_illegal_chars (py "win32") x).1, []).
Proof.
  split_and!; [apply illegal_subset_macos|apply illegal_subset_windows|].
  assert (Forall (λ c, c ∉ ILLEGAL_CHARS (get_os_type sys_platform))
            (filter_illegal_chars (py "win32") x).1) as Hall.
  { apply Forall_forall. intros c Hc%filtered_legal Hin.
    by apply Hc, (illegal_subset_windows (get_os_type sys_platform)). }
  unfold filter_illegal_chars at 1. cbv zeta. f_equal.
  - by apply filter_keeps_all.
  - by apply list_set_nil, re_findall_nil.
Qed.

(** ** New names *)

(** X4. The new name is made of the characters of the original name and
    of the content, nothing else and nothing lost: it is a permutation of
    the name followed by the content, the original name is a subsequence of
    it, and the content occurs in it in one piece. *)
Theorem new_name_characters (t : target) (position c : str) (i : Z) :
  let new_name := generate_new_name t position c i in
  new_name ≡ₚ pathlib.name (path t) ++ c
  ∧ pathlib.name (path t) `sublist_of` new_name
  ∧ ∃ a b, new_name = a ++ c ++ b.
Proof.
  cbn. destruct (generate_new_name_split t position c i)
    as (a & b & ext & -> & -> & _).
  split_and!.
  - rewrite <- !app_assoc. apply Permutation_app_head.
    rewrite (app_assoc b). apply Permutation_app_comm.
  - apply sublist_app; [done|]. by apply sublist_inserts_l.
  - by exists a, (b ++ ext).
Qed.

(** X5. A rename introduces no illegal character: with content that went
    through the filter, every character of the new name that is illegal
    on the platform was already in the original name; a legal name stays
    legal. *)
Theorem no_illegal_char_introduced (sys_platform raw : str) (t : target)
    (position : str) (i : Z) :
  let class := ILLEGAL_CHARS (get_os_type sys_platform) in
  let new_name :=
    generate_new_name t position (filter_illegal_chars sys_platform raw).1 i in
  (∀ c, c ∈ new_name → c ∈ class → c ∈ pathlib.name (path t))
  ∧ (Forall (λ c, c ∉ class) (pathlib.name (path t)) →
     Forall (λ c, c ∉ class) new_name).
Proof.
  cbv zeta.
  assert (∀ c, c ∈ generate_new_name t position
                     (filter_illegal_chars sys_platform raw).1 i →
               c ∈ ILLEGAL_CHARS (get_os_type sys_platform) →
               c ∈ pathlib.name (path t)) as Hold.
  { intros c Hc Hill.
    destruct (generate_new_name_split t position
                (filter_illegal_chars sys_platform raw).1 i)
      as (a & b & ext & Hn & Hg & _).
    rewrite Hg in Hc. rewrite Hn.
    rewrite !elem_of_app in *.
    destruct Hc as [?|[Hc|[?|?]]]; try tauto.
    by apply filtered_legal in Hc. }
  split; [done|]. rewrite !Forall_forall. intros Hleg c Hc Hill.
  apply (Hleg c); [by apply Hold|done].
Qed.

Lemma insert_content_middle_in_range (c : str) (i : Z) (s : str) :
  0 ≤ i < len s →
  insert_content pos_middle c i s
  = take (Z.to_nat i) s ++ c ++ drop (Z.to_nat i) s.
Proof.
  intros Hi. unfold insert_content.
  rewrite !bool_decide_eq_false_2 by done.
  replace (i >=? len s) with false
    by (symmetry; rewrite Z.geb_leb; apply Z.leb_gt; lia).
  unfold slice_to, slice_from, len in *.
  rewrite slice_index_nonneg by lia.
  by rewrite Z.min_l by lia.
Qed.

Lemma stem_without_suffix (p : Path) :
  pathlib.suffix p = [] → pathlib.stem p = pathlib.name p.
Proof.
  intros Hs. rewrite <- (path_stem_suffix p), Hs. by rewrite app_nil_r.
Qed.

(** X6. In the middle position an index inside the transformed name (the
    full name of a folder, the stem of a file) is the offset of the
    insertion: the content goes between the first [i] characters and the
    rest. *)
Theorem middle_index_in_range (t : target) (c : str) (i : Z) :
  let s := match type t with
           | folder => pathlib.name (path t)
           | file => pathlib.stem (path t)
           end in
  let ext := match type t with
             | folder => []
             | file => pathlib.suffix (path t)
             end in
  0 ≤ i < len s →
  generate_new_name t pos_middle c i
  = take (Z.to_nat i) s ++ c ++ drop (Z.to_nat i) s ++ ext.
Proof.
  cbv zeta. intros Hi. unfold generate_new_name. destruct (type t).
  - rewrite insert_content_middle_in_range by done. by rewrite !app_nil_r.
  - rewrite insert_content_middle_in_range by done. by rewrite <- !app_assoc.
Qed.

Lemma middle_index_in_range_witness :
  generate_new_name (sim.file_target "/data/notes.txt") pos_middle (py "_v2") 2
  = py "no_v2tes.txt".
Proof.
  rewrite (middle_index_in_range (sim.file_target "/data/notes.txt")
             (py "_v2") 2); by vm_compute.
Defined.

(** X7. At the start position the content is put before the whole
    original name, for a folder and for a file alike and whatever the
    index. *)
Theorem start_prepends_to_name (t : target) (c : str) (i : Z) :
  generate_new_name t pos_start c i = c ++ pathlib.name (path t).
Proof.
  unfold generate_new_name, insert_content.
  rewrite bool_decide_eq_true_2 by done.
  destruct (type t); [done|].
  by rewrite <- app_assoc, path_stem_suffix.
Qed.

(** X8. A file whose name has no extension is renamed as a folder of the
    same name would be, at every position. *)
Theorem file_without_suffix_as_folder (p : Path) (position c : str) (i : Z) :
  pathlib.suffix p = [] →
  generate_new_name (mkTarget p file) position c i
  = generate_new_name (mkTarget p folder) position c i.
Proof.
  intros Hs. unfold generate_new_name. cbn.
  by rewrite Hs, app_nil_r, stem_without_suffix.
Qed.

Lemma file_without_suffix_as_folder_witness :
  generate_new_name (sim.file_target "/data/.bashrc") pos_middle (py "X") 3
  = py ".baXshrc".
Proof.
  rewrite (file_without_suffix_as_folder (pathlib.of_str (py "/data/.bashrc")));
    by vm_compute.
Defined.

(** X9. Empty content changes nothing: the new name is the original name,
    at every position and for every index. *)
Theorem empty_content_keeps_name (t : target) (position : str) (i : Z) :
  generate_new_name t position [] i = pathlib.name (path t).
Proof.
  destruct (generate_new_name_split t position [] i)
    as (a & b & ext & -> & -> & _). done.
Qed.

(** ** Planned paths *)

Lemma new_name_component (t : target) (position c : str) (i : Z) :
  pathlib.wf (path t) → pathlib.tail (path t) ≠ [] → 47%N ∉ c →
  let new_name := generate_new_name t position c i in
  (47%N ∉ new_name) ∧ new_name ≠ [] ∧ new_name ≠ [46%N].
Proof.
  intros Hwf Htl Hc. cbv zeta.
  pose proof (generate_new_name_length t position c i) as Hlen.
  pose proof (generate_new_name_nil t position i) as Hnil.
  destruct (generate_new_name_split t position c i)
    as (a & b & ext & Hn & Hg & _).
  destruct (name_wf _ Hwf) as [[? _]|(_ & Hne & Hnd & Hsl)]; [done|].
  split_and!.
  - rewrite Hg. rewrite Hn in Hsl. rewrite !not_elem_of_app in *. tauto.
  - intros Heq. rewrite Heq in Hlen. cbn in Hlen.
    destruct (pathlib.name (path t)); [done|cbn in Hlen; lia].
  - intros Heq. rewrite Heq in Hlen. cbn in Hlen. destruct c as [|x c'].
    + apply Hnd. by rewrite <- Hnil.
    + destruct (pathlib.name (path t)); [done|cbn in Hlen; lia].
Qed.

Section planned_paths.
Context {FS : Type} `{!FileSystem FS}.

(** X10. For a target that has a name and content that went through the
    filter, the planned path is the sibling called by the new name: it has
    the root of the original path, the same components up to the last one,
    and the new name as its last component; with non-empty content it is
    not the original path. *)
Theorem new_path_is_sibling (fs : FS) (sys_platform raw position : str)
    (i : Z) (t : target) :
  let c := (filter_illegal_chars sys_platform raw).1 in
  let item := plan_entry fs position c i t in
  pathlib.wf (path t) → pathlib.tail (path t) ≠ [] →
  pathlib.root (new_path item) = pathlib.root (original_path item)
  ∧ pathlib.tail (new_path item)
    = removelast (pathlib.tail (original_path item)) ++ [new_name item]
  ∧ pathlib.name (new_path item) = new_name item
  ∧ (c ≠ [] → new_path item ≠ original_path item).
Proof.
  cbv zeta. intros Hwf Htl.
  assert (47%N ∉ (filter_illegal_chars sys_platform raw).1) as Hc.
  { intros Hin%filtered_legal. apply Hin, slash_illegal. }
  generalize dependent (filter_illegal_chars sys_platform raw).1.
  intros c Hc.
  destruct (new_name_component t position c i Hwf Htl Hc) as (Hs & Hn & Hd).
  pose proof (generate_new_name_length t position c i) as Hlen.
  unfold plan_entry.
  cbn [new_path original_path new_name]. rewrite joinpath_component by done.
  assert (pathlib.parent (path t)
          = pathlib.mkPath (pathlib.root (path t))
              (removelast (pathlib.tail (path t)))) as ->.
  { unfold pathlib.parent. by destruct (pathlib.tail (path t)). }
  cbn [pathlib.root pathlib.tail]. split_and!; try done.
  - unfold pathlib.name. cbn [pathlib.tail]. by rewrite last_last.
  - intros Hne Heq. apply (f_equal pathlib.name) in Heq.
    unfold pathlib.name at 1 in Heq. cbn [pathlib.tail] in Heq.
    rewrite last_last in Heq. rewrite Heq in Hlen.
    destruct c; [done|]. cbn in Hlen. lia.
Qed.

End planned_paths.

Lemma new_path_is_sibling_witness :
  let item := plan_entry sim.data pos_end
                (filter_illegal_chars (py "darwin") (py "_v:2")).1 0
                (sim.file_target "/data/notes.txt") in
  pathlib.to_str (new_path item) = py "/data/notes_v2.txt"
  ∧ pathlib.name (new_path item) = new_name item.
Proof.
  cbv zeta. split; [by vm_compute|].
  apply (new_path_is_sibling sim.data (py "darwin") (py "_v:2") pos_end 0
           (sim.file_target "/data/notes.txt")).
  - apply of_str_wf.
  - by vm_compute.
Defined.

Lemma no_illegal_char_introduced_witness :
  Forall (λ c, c ∉ ILLEGAL_CHARS (get_os_type (py "win32")))
    (generate_new_name (sim.file_target "/data/notes.txt") pos_start
       (filter_illegal_chars (py "win32") (py "v?2:")).1 0).
Proof.
  apply (no_illegal_char_introduced (py "win32") (py "v?2:")
           (sim.file_target "/data/notes.txt") pos_start 0).
  refine (bool_decide_unpack _ _). by vm_compute.
Defined.

(** ** Paths and their text *)

Lemma split_app_sep (sep : char) (x rest : str) :
  sep ∉ x → split sep (x ++ sep :: rest) = x :: split sep rest.
Proof.
  induction x as [|c x IH]; intros Hx; cbn.
  - by rewrite decide_True.
  - apply not_elem_of_cons in Hx as [Hc Hx].
    rewrite decide_False by done. by rewrite IH.
Qed.

Lemma split_join (sep : char) (l : list str) :
  l ≠ [] → Forall (λ x, sep ∉ x) l → split sep (join [sep] l) = l.
Proof.
  intros Hne Hall. induction Hall as [|x l Hx Hall IH]; [done|].
  destruct l as [|y l]; [by apply split_absent|].
  change (join [sep] (x :: y :: l)) with (x ++ sep :: join [sep] (y :: l)).
  rewrite split_app_sep by done. by rewrite IH.
Qed.

Lemma filter_kept_wf (l : list str) :
  Forall (λ x, x ≠ [] ∧ x ≠ [46%N] ∧ 47%N ∉ x) l →
  List.filter pathlib.kept l = l.
Proof.
  induction 1 as [|x l (Hn & Hd & _) _ IH]; [done|]. cbn.
  unfold pathlib.kept at 1. rewrite !bool_decide_eq_false_2 by done.
  cbn. by rewrite IH.
Qed.

Lemma join_head (l : list str) :
  l ≠ [] → Forall (λ x, x ≠ [] ∧ x ≠ [46%N] ∧ 47%N ∉ x) l →
  take 1 (join [47%N] l) ≠ [47%N].
Proof.
  intros Hne Hall. destruct Hall as [|x l (Hn & _ & Hs) _]; [done|].
  destruct x as [|c x]; [done|]. apply not_elem_of_cons in Hs as [Hc _].
  destruct l; cbn; congruence.
Qed.

Lemma of_str_rel (l : list str) :
  Forall (λ x, x ≠ [] ∧ x ≠ [46%N] ∧ 47%N ∉ x) l →
  List.filter pathlib.kept (split 47%N (join [47%N] l)) = l.
Proof.
  intros Hall. destruct (decide (l = [])) as [->|Hne]; [done|].
  rewrite split_join; [by apply filter_kept_wf|done|].
  eapply Forall_impl; [done|]. cbn. tauto.
Qed.

(** X11. A path survives the round trip through its text, which the
    resolver makes between validation and the target list: for every path
    object, with one of the roots of the POSIX flavour, [Path(str(p))] is
    [p]. *)
Theorem path_str_round_trip (p : Path) :
  pathlib.wf p → posix_root p → pathlib.of_str (pathlib.to_str p) = p.
Proof.
  destruct p as [r t]. unfold pathlib.wf, posix_root. cbn.
  intros Hwf Hroot.
  destruct (decide (t = [])) as [->|Hne].
  { by destruct Hroot as [->|[->| ->]]. }
  pose proof (of_str_rel t Hwf) as Hrel.
  pose proof (join_head t Hne Hwf) as Hhead.
  assert (pathlib.to_str (pathlib.mkPath r t) = r ++ join [47%N] t) as ->.
  { unfold pathlib.to_str. cbn. by destruct r, t. }
  remember (join [47%N] t) as s eqn:Hs. clear Hs.
  unfold pathlib.of_str, pathlib.splitroot.
  destruct Hroot as [->|[->| ->]]; cbn [app take drop].
  - rewrite (bool_decide_eq_false_2 _ Hhead). cbn. by rewrite Hrel.
  - rewrite bool_decide_eq_true_2 by done.
    rewrite (bool_decide_eq_false_2 _ Hhead). cbn. by rewrite drop_0, Hrel.
  - rewrite !bool_decide_eq_true_2 by done.
    rewrite (bool_decide_eq_false_2 _ Hhead). cbn.
    by rewrite ?drop_0, ?take_0, Hrel.
Qed.

Lemma path_str_round_trip_witness :
  pathlib.of_str (pathlib.to_str (pathlib.mkPath [47%N] [py "data"; py "a.txt"]))
  = pathlib.mkPath [47%N] [py "data"; py "a.txt"].
Proof.
  apply path_str_round_trip.
  - refine (bool_decide_unpack _ _). by vm_compute.
  - right. by left.
Defined.

(** ** Computations *)

Section computations.
Context {FS : Type} `{!FileSystem FS}.
Implicit Types (fs : FS).

Lemma readonly_ret {A} (x : A) : readonly (FS:=FS) (ret x).
Proof. intros fs fs' r. unfold ret. congruence. Qed.

Lemma readonly_ask {A} (q : FS → A) : readonly (ask q).
Proof. intros fs fs' r. unfold ask. congruence. Qed.

Lemma readonly_query {A} (q : FS → exn + A) : readonly (query q).
Proof. intros fs fs' r. unfold query. congruence. Qed.

Lemma readonly_bind {A B} (m : M FS A) (k : A → M FS B) :
  readonly m → (∀ x, readonly (k x)) → readonly (bind m k).
Proof.
  intros Hm Hk fs fs' r. unfold bind.
  destruct (m fs) as [fs1 [e|x]] eqn:Hrun; apply Hm in Hrun as ->.
  - congruence.
  - apply Hk.
Qed.

Lemma readonly_try_except {A} (m : M FS A) (h : exn → M FS A) :
  readonly m → (∀ e, readonly (h e)) → readonly (try_except m h).
Proof.
  intros Hm Hh fs fs' r. unfold try_except.
  destruct (m fs) as [fs1 [e|x]] eqn:Hrun; apply Hm in Hrun as ->.
  - apply Hh.
  - congruence.
Qed.

Lemma readonly_for_each {A B} (l : list A) (body : A → M FS (list B)) :
  (∀ x, readonly (body x)) → readonly (for_each l body).
Proof.
  intros Hbody. induction l as [|x l IH]; cbn.
  - apply readonly_ret.
  - apply readonly_bind; [done|]. intros ys.
    apply readonly_bind; [done|]. intros zs. apply readonly_ret.
Qed.

Lemma readonly_dedup_targets (target_list : list target) :
  readonly (FS:=FS) (dedup_targets target_list).
Proof. unfold dedup_targets. case_bool_decide; apply readonly_ret. Qed.

Lemma dedup_targets_returns (target_list : list target) fs :
  ∃ l, dedup_targets target_list fs = (fs, inr l).
Proof. unfold dedup_targets, ret. case_bool_decide; eauto. Qed.

Lemma for_each_Forall {A B} (P : B → Prop) (l : list A)
    (body : A → M FS (list B)) fs fs' ys :
  (∀ x fs1 fs2 zs, x ∈ l → body x fs1 = (fs2, inr zs) → Forall P zs) →
  for_each l body fs = (fs', inr ys) → Forall P ys.
Proof.
  intros Hbody. revert fs fs' ys.
  induction l as [|x l IH]; intros fs fs' ys; cbn.
  - intros ->%ret_inr. constructor.
  - intros (zs & fs1 & Hx & Hrest)%bind_inr.
    apply bind_inr in Hrest as (ws & fs2 & Hl & ->%ret_inr).
    apply Forall_app. split.
    + eapply Hbody; [apply list_elem_of_here|done].
    + eapply IH; [|done]. intros.
      eapply Hbody; [by apply list_elem_of_further|done].
Qed.

Lemma try_except_Some {A} (m : M FS (option A)) fs fs' (x : A) :
  try_except m (λ _, ret None) fs = (fs', inr (Some x)) →
  m fs = (fs', inr (Some x)).
Proof.
  unfold try_except, ret. destruct (m fs) as [fs1 [e|y]]; congruence.
Qed.

End computations.

(** ** Validation and resolution *)

(** Case analysis on the run of a validator or of a loop body. *)
Ltac run_cases H :=
  unfold validate_single_path, validate_root_path, try_except_permission,
    try_except, probe_name, bind, ret, ask, query, command in H;
  repeat (case_match; simplify_eq/=); simplify_eq/=.

Section resolver.
Context {FS : Type} `{!FileSystem FS}.
Implicit Types (fs : FS) (l : list target).

Lemma validate_file_readonly (p : str) :
  readonly (FS:=FS) (validate_single_path p file).
Proof. intros fs fs' r Hrun. by run_cases Hrun. Qed.

Lemma for_each_readonly_elem {A B} (l : list A) (body : A → M FS (list B))
    fs fs' ys :
  (∀ x, readonly (body x)) →
  for_each l body fs = (fs', inr ys) →
  ∀ y, y ∈ ys → ∃ x zs, x ∈ l ∧ body x fs = (fs, inr zs) ∧ y ∈ zs.
Proof.
  intros Hro. revert fs' ys. induction l as [|x l IH]; intros fs' ys; cbn.
  - intros ->%ret_inr y Hy. by apply elem_of_nil in Hy.
  - intros (zs & fs1 & Hx & Hrest)%bind_inr.
    apply bind_inr in Hrest as (ws & fs2 & Hl & ->%ret_inr).
    pose proof (Hro x _ _ _ Hx) as ->.
    intros y [Hy|Hy]%elem_of_app.
    + exists x, zs. split_and!; [apply list_elem_of_here|done..].
    + destruct (IH _ _ Hl y Hy) as (x' & zs' & ? & ? & ?).
      exists x', zs'. split_and!; [by apply list_elem_of_further|done..].
Qed.

Lemma dedup_targets_Forall (P : target → Prop) (target_list : list target)
    fs fs' l :
  dedup_targets target_list fs = (fs', inr l) →
  Forall P target_list → Forall P l.
Proof.
  intros Hrun. rewrite !Forall_forall. intros HP t Ht.
  by apply HP, (dedup_targets_elem_of _ _ _ _ _ Hrun).
Qed.

(** X12. Validation is sound. When [validate_single_path] accepts a path,
    the path was not empty, it resolved, the text returned is the text of
    the resolved path, and in the state the validation started in the
    resolved path exists and has the expected kind: it is a folder, or it
    is a file that could be opened, in which case the system is left as
    it was. When [validate_root_path] accepts a path, the same holds with
    a folder. *)
Theorem validation_sound (p : str) fs fs' (s : str) :
  (∀ ty,
     validate_single_path p ty fs = (fs', inr (inr s)) →
     p ≠ []
     ∧ ∃ q, fs_resolve fs (pathlib.of_str p) = inr q
            ∧ s = pathlib.to_str q
            ∧ fs_exists fs q = true
            ∧ match ty with
              | folder => fs_is_dir fs q = true
              | file => fs_is_file fs q = true ∧ fs_open_rb fs q = inr tt
                        ∧ fs' = fs
              end)
  ∧ (validate_root_path p fs = (fs', inr (inr s)) →
     p ≠ []
     ∧ ∃ q, fs_resolve fs (pathlib.of_str p) = inr q
            ∧ s = pathlib.to_str q
            ∧ fs_exists fs q = true ∧ fs_is_dir fs q = true).
Proof.
  split; [intros ty|]; intros Hrun; run_cases Hrun;
    repeat match goal with
      | H : bool_decide _ = false |- _ => apply bool_decide_eq_false in H
      | H : negb _ = false |- _ => apply negb_false_iff in H
      | H : _ && _ = false |- _ => apply andb_false_iff in H
      end;
    (split; [done|]); eexists; split_and!; try done;
    match goal with u : () |- _ => by destruct u end.
Qed.


(** X14. Resolving files leaves the system as it found it: in file mode,
    whatever the input and whether the resolver returns or raises, the
    final state is the initial one. *)
Theorem file_mode_read_only (input_path : str) fs fs' r :
  get_target_list input_path mode_file fs = (fs', r) → fs' = fs.
Proof.
  revert fs fs' r. change (readonly (get_target_list input_path mode_file)).
  unfold get_target_list. cbn.
  repeat first
    [ apply readonly_ret | apply readonly_ask | apply readonly_query
    | apply readonly_dedup_targets | apply validate_file_readonly
    | apply readonly_bind; [|intros ?]
    | apply readonly_try_except; [|intros ?]
    | apply readonly_for_each; intros ?
    | case_match ].
Qed.

Lemma try_except_catches {A} (m : M FS A) (x : A) :
  readonly m →
  ∀ fs, ∃ y, try_except m (λ _, ret x) fs = (fs, inr y).
Proof.
  intros Hm fs. unfold try_except, ret.
  destruct (m fs) as [fs1 [e|y]] eqn:Hrun; apply Hm in Hrun as ->; eauto.
Qed.

(** X15. The wildcard form never raises and never changes the system:
    for folders or files, an input with a wildcard and no comma always
    gives a list of targets, empty when the pattern fails, in the state
    the resolver started in. *)
Theorem wildcard_never_raises (input_path : str) (mode : target_mode) fs :
  mode ≠ mode_all →
  contains input_path 44%N = false → contains input_path 42%N = true →
  ∃ l, get_target_list input_path mode fs = (fs, inr l).
Proof.
  intros Hmode Hcomma Hstar. unfold get_target_list.
  destruct mode; [| |done]; rewrite Hcomma, Hstar; cbn;
    unfold bind at 1;
    match goal with
    | |- context [try_except ?m ?h fs] =>
        destruct (try_except_catches m None) with (fs := fs) as [r ->]
    end;
    try (destruct r; [apply dedup_targets_returns|unfold ret; eauto]);
    repeat first
      [ apply readonly_ret | apply readonly_ask | apply readonly_query
      | apply readonly_bind; [|intros ?]
      | apply readonly_for_each; intros ?
      | case_match ].
Qed.

(** The targets of the comma, wildcard and single-path forms all have the
    kind [ty] the mode asks for. *)
Ltac kind_of_targets Hrun ty :=
  destruct (contains _ 44%N);
  [ apply bind_inr in Hrun as (? & ? & Hloop & Hrun);
    apply (for_each_Forall (λ t, type t = ty)) in Hloop;
    [|intros ? ? ? ? _ Hbody; run_cases Hbody; by repeat constructor];
    by eapply dedup_targets_Forall in Hrun
  | destruct (contains _ 42%N);
    [ apply bind_inr in Hrun as ([?|] & ? & Htry & Hrun);
      [ apply try_except_Some in Htry; cbv zeta in Htry;
        apply bind_inr in Htry
          as (? & ? & _ & (? & ? & Hloop & [= ->]%ret_inr)%bind_inr);
        apply (for_each_Forall (λ t, type t = ty)) in Hloop;
        [|intros ? ? ? ? _ Hbody; run_cases Hbody; by repeat constructor];
        by eapply dedup_targets_Forall in Hrun
      | apply ret_inr in Hrun as ->; constructor ]
    | apply bind_inr in Hrun as ([?|?] & ? & _ & Hrun);
      [ apply ret_inr in Hrun as ->; constructor
      | eapply dedup_targets_Forall in Hrun; [exact Hrun|];
        by repeat constructor ] ] ].

(** X16. The mode decides the kind of every target: in folder mode the
    resolver returns folders only, in file mode files only. *)
Theorem mode_decides_kind (input_path : str) (mode : target_mode) fs fs' l :
  get_target_list input_path mode fs = (fs', inr l) →
  (mode = mode_folder → Forall (λ t, type t = folder) l)
  ∧ (mode = mode_file → Forall (λ t, type t = file) l).
Proof.
  intros Hrun. unfold get_target_list in Hrun.
  split; intros ->; cbn in Hrun.
  - kind_of_targets Hrun folder.
  - kind_of_targets Hrun file.
Qed.

(** X17. In the mode for everything under a root, every target comes from
    an entry that the validated root lists: its path is the resolved path
    of the entry, and its kind is what the entry is, a folder when the
    entry is a directory and a file when it is not a directory but a
    regular file; an entry that is neither gives no target. The state is
    the one validation left. *)
Theorem all_mode_targets (input_path : str) fs fs' l :
  get_target_list input_path mode_all fs = (fs', inr l) →
  ∀ t, t ∈ l →
    ∃ s items item,
      validate_root_path input_path fs = (fs', inr (inr s))
      ∧ fs_iterdir fs' (pathlib.of_str s) = inr items
      ∧ item ∈ items
      ∧ fs_resolve fs' item = inr (path t)
      ∧ (type t = folder ∧ fs_is_dir fs' item = true
         ∨ type t = file ∧ fs_is_dir fs' item = false
           ∧ fs_is_file fs' item = true).
Proof.
  intros Hrun t Ht. unfold get_target_list in Hrun.
  apply bind_inr in Hrun as ([d|s] & fs1 & Hval & Hrun).
  { apply ret_inr in Hrun as ->. by apply elem_of_nil in Ht. }
  cbv zeta in Hrun.
  apply bind_inr in Hrun as (items & fs2 & Hq & Hrun).
  unfold query in Hq. injection Hq as <- Hq.
  apply bind_inr in Hrun as (tl & fs3 & Hloop & Hrun).
  assert (∀ item : Path, readonly (FS:=FS)
            (bind (ask (λ fs, fs_is_dir fs item))
               (λ d, if d then
                       bind (query (λ fs, fs_resolve fs item))
                         (λ p, ret [mkTarget p folder])
                     else
                       bind (ask (λ fs, fs_is_file fs item))
                         (λ f, if f then
                                 bind (query (λ fs, fs_resolve fs item))
                                   (λ p, ret [mkTarget p file])
                               else ret [])))) as Hro.
  { intros item.
    repeat first
      [ apply readonly_ret | apply readonly_ask | apply readonly_query
      | apply readonly_bind; [|intros ?] | case_match ]. }
  pose proof (readonly_for_each _ _ Hro _ _ _ Hloop) as ->.
  assert (fs' = fs1 ∧ t ∈ tl) as [-> Htl].
  { case_bool_decide.
    - apply ret_inr in Hrun as ->. by apply elem_of_nil in Ht.
    - split; [by apply readonly_dedup_targets in Hrun|].
      by apply (dedup_targets_elem_of _ _ _ _ _ Hrun). }
  destruct (for_each_readonly_elem _ _ _ _ _ Hro Hloop t Htl)
    as (item & zs & Hitem & Hbody & Hz).
  exists s, items, item. split_and!; try done.
  - run_cases Hbody;
      repeat match goal with
        | H : _ ∈ [] |- _ => by apply elem_of_nil in H
        | H : _ ∈ [_] |- _ => apply list_elem_of_singleton in H as ->
        end; done.
  - run_cases Hbody;
      repeat match goal with
        | H : _ ∈ [] |- _ => by apply elem_of_nil in H
        | H : _ ∈ [_] |- _ => apply list_elem_of_singleton in H as ->
        end; cbn; tauto.
Qed.

End resolver.

Lemma validation_sound_witness :
  ∃ q, fs_resolve sim.data (pathlib.of_str (py "/data/a.txt")) = inr q
       ∧ fs_exists sim.data q = true ∧ fs_is_file sim.data q = true.
Proof.
  destruct (proj1 (validation_sound (py "/data/a.txt") sim.data sim.data
                     (py "/data/a.txt")) file)
    as (_ & q & Hq & _ & Hex & Hfile & _); [by vm_compute|].
  by exists q.
Defined.


Lemma file_mode_read_only_witness :
  (get_target_list (py "/data/a.txt,/data/b.txt") mode_file sim.data).1
  = sim.data.
Proof.
  eapply (file_mode_read_only (py "/data/a.txt,/data/b.txt")).
  apply surjective_pairing.
Defined.

Lemma wildcard_never_raises_witness :
  ∃ l, get_target_list (py "/data/*.txt") mode_file sim.data
       = (sim.data, inr l).
Proof.
  by apply (wildcard_never_raises (py "/data/*.txt") mode_file sim.data).
Defined.

Lemma mode_decides_kind_witness :
  ∃ l, (get_target_list (py "/data/*") mode_folder sim.data).2 = inr l
       ∧ l ≠ [] ∧ Forall (λ t, type t = folder) l.
Proof.
  pose proof (mode_decides_kind (py "/data/*") mode_folder sim.data) as Hkind.
  destruct (get_target_list (py "/data/*") mode_folder sim.data)
    as [fs' [e|l]] eqn:Hrun; [by vm_compute in Hrun|].
  exists l. split_and!; [done| |by apply (Hkind fs' l)].
  intros ->. by vm_compute in Hrun.
Defined.

Lemma all_mode_targets_witness :
  ∃ fs' l,
    get_target_list (py "/project") mode_all sim.project = (fs', inr l)
    ∧ ∀ t, t ∈ l →
        ∃ item, fs_resolve fs' item = inr (path t)
                ∧ (fs_is_dir fs' item = true ∨ fs_is_file fs' item = true).
Proof.
  eexists _, _. split; [by vm_compute|]. intros t Ht.
  edestruct (all_mode_targets (py "/project") sim.project)
    as (s & items & item & _ & _ & _ & Hres & Hkind); [|exact Ht|].
  { by vm_compute. }
  exists item. split; [done|]. tauto.
Defined.

(** ** The plan and its execution *)

Section plan_and_execution.
Context {FS : Type} `{!FileSystem FS}.
Context (fs : FS) (current_time operator position : str) (insert_index : Z).
Implicit Types (item : plan) (pl : list plan).

Let run pl :=
  rename_core_execute fs pl current_time operator position insert_index.
Let line := log_line current_time operator position insert_index.

(** X18. The plan follows the target list: it has one entry per target, in
    the order of the targets, with the path and kind of the target and the
    generated name; and the preview raises its warning flag exactly when
    some entry of the plan is flagged as colliding. *)
Theorem preview_follows_targets (targets : list target) (c : str) :
  let preview := rename_core_preview fs targets position c insert_index in
  original_path <$> preview.1 = path <$> targets
  ∧ plan_type <$> preview.1 = type <$> targets
  ∧ new_name <$> preview.1
    = (λ t, generate_new_name t position c insert_index) <$> targets
  ∧ (preview.2 = true ↔ ∃ item, item ∈ preview.1 ∧ duplicate item = true).
Proof.
  cbv zeta. unfold rename_core_preview. rewrite preview_fold. cbn.
  split_and!; try by rewrite <- list_fmap_compose.
  rewrite existsb_exists. split.
  - intros (t & Ht%list_elem_of_In & Hd).
    exists (plan_entry fs position c insert_index t).
    split; [by apply list_elem_of_fmap_2|done].
  - intros (item & (t & -> & Ht)%list_elem_of_fmap & Hd).
    exists t. split; [by apply list_elem_of_In|done].
Qed.

Lemma success_count_nonneg pl : 0 ≤ success_count (run pl).
Proof.
  induction pl as [|item pl IH] using rev_ind; [done|].
  unfold run in *. rewrite run_snoc.
  destruct (execute_step_cases current_time operator position insert_index
              (rename_core_execute fs pl current_time operator position
                 insert_index) item)
    as [[_ ->]|[(_ & e & _ & ->)|(_ & fs' & _ & ->)]]; cbn; lia.
Qed.

Lemma fail_count_nonneg pl : 0 ≤ fail_count (run pl).
Proof.
  induction pl as [|item pl IH] using rev_ind; [done|].
  unfold run in *. rewrite run_snoc.
  destruct (execute_step_cases current_time operator position insert_index
              (rename_core_execute fs pl current_time operator position
                 insert_index) item)
    as [[_ ->]|[(_ & e & _ & ->)|(_ & fs' & _ & ->)]]; cbn; lia.
Qed.

Lemma log_records_length pl :
  len (log_records (run pl)) = success_count (run pl).
Proof.
  induction pl as [|item pl IH] using rev_ind; [done|].
  unfold run, len in *. rewrite run_snoc.
  destruct (execute_step_cases current_time operator position insert_index
              (rename_core_execute fs pl current_time operator position
                 insert_index) item)
    as [[_ ->]|[(_ & e & _ & ->)|(_ & fs' & _ & ->)]]; cbn; [done|done|].
  rewrite length_app. cbn. lia.
Qed.

Lemma log_records_lines pl r :
  r ∈ log_records (run pl) → ∃ item, item ∈ pl ∧ r = line item.
Proof.
  induction pl as [|item pl IH] using rev_ind.
  { by intros ?%elem_of_nil. }
  unfold run, line in *. rewrite run_snoc.
  destruct (execute_step_cases current_time operator position insert_index
              (rename_core_execute fs pl current_time operator position
                 insert_index) item)
    as [[_ ->]|[(_ & e & _ & ->)|(_ & fs' & _ & ->)]]; cbn.
  1,2: intros (it & ? & ?)%IH; exists it; split; [|done];
       apply elem_of_app; by left.
  intros [(it & ? & ?)%IH| ->%list_elem_of_singleton]%elem_of_app.
  - exists it. split; [|done]. apply elem_of_app; by left.
  - exists item. split; [|done]. apply elem_of_app; right; left.
Qed.

(** X19. The summary agrees with the log: the number of log records is the
    number of successes, and both counters are between zero and the length
    of the plan. *)
Theorem log_matches_successes pl :
  len (log_records (run pl)) = success_count (run pl)
  ∧ 0 ≤ success_count (run pl) ≤ len pl
  ∧ 0 ≤ fail_count (run pl) ≤ len pl.
Proof.
  pose proof (counts_total fs current_time operator position insert_index pl).
  pose proof (success_count_nonneg pl). pose proof (fail_count_nonneg pl).
  split; [apply log_records_length|]. unfold run in *. lia.
Qed.

(** X20. The file system changes through successful renames only: when no
    rename of the plan succeeded, in particular when every entry was
    flagged as colliding, the file system is the initial one, nothing is
    logged and every entry counts as a failure. *)
Theorem no_success_no_change pl :
  (success_count (run pl) = 0 →
   exec_fs (run pl) = fs ∧ log_records (run pl) = []
   ∧ fail_count (run pl) = len pl)
  ∧ (Forall (λ item, duplicate item = true) pl → success_count (run pl) = 0).
Proof.
  split.
  - intros Hzero.
    pose proof (counts_total fs current_time operator position insert_index pl)
      as Htotal.
    split_and!; [|by apply nil_length_inv;
                    pose proof (log_records_length pl); unfold len in *; lia
                 |unfold run in *; lia].
    induction pl as [|item pl IH] using rev_ind; [done|].
    pose proof (success_count_nonneg pl) as Hpos.
    unfold run in *. rewrite run_snoc in *.
    destruct (execute_step_cases current_time operator position insert_index
                (rename_core_execute fs pl current_time operator position
                   insert_index) item)
      as [[_ Hs]|[(_ & e & _ & Hs)|(_ & fs' & _ & Hs)]];
      rewrite Hs in *; cbn in *; [| |lia];
      apply IH; try done;
      apply (counts_total fs current_time operator position insert_index pl).
  - induction pl as [|item pl IH] using rev_ind; [done|].
    intros [Hpl [Hd _]%Forall_cons]%Forall_app.
    unfold run in *. rewrite run_snoc. unfold execute_step. rewrite Hd. cbn.
    by apply IH.
Qed.

End plan_and_execution.

(** ** The text of the log *)

Lemma pretty_N_char_digit (d : N) : N_of_ascii (pretty_N_char d) ≠ 10%N.
Proof. unfold pretty_N_char. by repeat case_match. Qed.

Lemma pretty_N_go_chars (x : N) (s : string) :
  Forall (λ a, N_of_ascii a ≠ 10%N) (list_ascii_of_string s) →
  Forall (λ a, N_of_ascii a ≠ 10%N) (list_ascii_of_string (pretty_N_go x s)).
Proof.
  revert s. induction (N.lt_wf_0 x) as [x _ IH]. intros s Hs.
  destruct (decide (x = 0%N)) as [->|Hx]; [by rewrite pretty_N_go_0|].
  rewrite pretty_N_go_step by lia. apply IH.
  - apply N.div_lt; lia.
  - cbn. constructor; [apply pretty_N_char_digit|done].
Qed.

Lemma pretty_N_chars (x : N) :
  Forall (λ a, N_of_ascii a ≠ 10%N) (list_ascii_of_string (pretty x)).
Proof.
  unfold pretty, pretty_N. case_decide.
  - by repeat constructor.
  - apply pretty_N_go_chars. constructor.
Qed.

Lemma int_str_one_line (n : Z) : 10%N ∉ int_str n.
Proof.
  assert (Forall (λ a, N_of_ascii a ≠ 10%N)
            (list_ascii_of_string (pretty n))) as Hall.
  { unfold pretty, pretty_Z. destruct n as [|p|p].
    - by repeat constructor.
    - apply (pretty_N_chars (Npos p)).
    - cbn. constructor; [done|]. apply (pretty_N_chars (Npos p)). }
  unfold int_str, py. intros (a & Ha & Hin)%list_elem_of_fmap.
  rewrite Forall_forall in Hall. by apply (Hall a Hin).
Qed.

Lemma log_line_one_line (current_time operator position : str)
    (insert_index : Z) (item : plan) :
  10%N ∉ current_time → 10%N ∉ operator → 10%N ∉ position →
  10%N ∉ pathlib.to_str (original_path item) →
  10%N ∉ pathlib.to_str (new_path item) →
  10%N ∉ log_line current_time operator position insert_index item.
Proof.
  intros Ht Ho Hp Hs Hd. unfold log_line.
  pose proof (int_str_one_line insert_index).
  assert (10%N ∉ type_str (plan_type item))
    by (destruct (plan_type item); refine (bool_decide_unpack _ _);
        by vm_compute).
  assert (10%N ∉ (if bool_decide (position = pos_middle)
                  then int_str insert_index else [26080%N]))
    by (case_bool_decide; [done|by intros [?|?%elem_of_nil]%elem_of_cons]).
  rewrite !not_elem_of_app. split_and!; try done;
    refine (bool_decide_unpack _ _); by vm_compute.
Qed.

Section log_text.
Context {FS : Type} `{!FileSystem FS}.

(** X21. The text handed to [save_operation_log] keeps the records apart:
    when the time, the operator, the position and the texts of the planned
    paths hold no line feed, a non-empty log joined by line feeds splits
    back at the line feeds into its records, one line per successful
    rename. *)
Theorem log_content_round_trip (fs : FS) (pl : list plan)
    (current_time operator position : str) (insert_index : Z) :
  let st := rename_core_execute fs pl current_time operator position
              insert_index in
  10%N ∉ current_time → 10%N ∉ operator → 10%N ∉ position →
  Forall (λ item, (10%N ∉ pathlib.to_str (original_path item))
                  ∧ (10%N ∉ pathlib.to_str (new_path item))) pl →
  log_records st ≠ [] →
  split 10%N (log_content (log_records st)) = log_records st
  ∧ len (split 10%N (log_content (log_records st))) = success_count st.
Proof.
  cbv zeta. intros Ht Ho Hp Hpl Hne.
  assert (split 10%N (log_content
            (log_records (rename_core_execute fs pl current_time operator
                            position insert_index)))
          = log_records (rename_core_execute fs pl current_time operator
                           position insert_index)) as Hsplit.
  { apply split_join; [done|]. apply Forall_forall.
    intros r (item & Hitem & ->)%log_records_lines.
    rewrite Forall_forall in Hpl. destruct (Hpl item Hitem).
    by apply log_line_one_line. }
  split; [done|]. rewrite Hsplit. apply log_records_length.
Qed.

End log_text.

(** ** The prompts *)

Lemma filter_accepts_clean (sys_platform s : str) :
  (filter_illegal_chars sys_platform s).2 = [] →
  (filter_illegal_chars sys_platform s).1 = s.
Proof.
  unfold filter_illegal_chars. cbn [fst snd].
  rewrite list_set_nil, re_findall_nil. apply filter_keeps_all.
Qed.

Lemma filter_of_filtered (sys_platform s : str) :
  filter_illegal_chars sys_platform (filter_illegal_chars sys_platform s).1
  = ((filter_illegal_chars sys_platform s).1, []).
Proof.
  assert (Forall (λ c, c ∉ ILLEGAL_CHARS (get_os_type sys_platform))
            (filter_illegal_chars sys_platform s).1) as Hall.
  { apply Forall_forall. intros c. apply filtered_legal. }
  unfold filter_illegal_chars at 1. cbv zeta. f_equal.
  - by apply filter_keeps_all.
  - by apply list_set_nil, re_findall_nil.
Qed.

(** X22. The content prompt hands on usable content only: the content it
    accepts is not empty, holds no character that is illegal on the
    platform, passes the filter unchanged with nothing reported, and is
    the filtered form of the first line that is neither blank nor made of
    illegal characters only; the lines before it are rejected. *)
Theorem accepted_content_usable (sys_platform : str) (inputs : list str)
    (c : str) (rest : list str) :
  read_content sys_platform inputs = Some (c, rest) →
  c ≠ []
  ∧ Forall (λ x, x ∉ ILLEGAL_CHARS (get_os_type sys_platform)) c
  ∧ filter_illegal_chars sys_platform c = (c, [])
  ∧ ∃ skipped line,
      inputs = skipped ++ line :: rest
      ∧ c = (filter_illegal_chars sys_platform (strip line)).1
      ∧ Forall (λ l, (filter_illegal_chars sys_platform (strip l)).1 = [])
          skipped.
Proof.
  intros Hread.
  assert (∃ skipped line,
            inputs = skipped ++ line :: rest
            ∧ c = (filter_illegal_chars sys_platform (strip line)).1
            ∧ c ≠ []
            ∧ Forall (λ l, (filter_illegal_chars sys_platform (strip l)).1
                           = []) skipped)
    as (skipped & line & -> & -> & Hne & Hsk).
  { revert Hread. induction inputs as [|l inputs IH]; [done|].
    cbn [read_content]. cbv zeta.
    destruct (filter_illegal_chars sys_platform (strip l))
      as [filtered illegal] eqn:Hf.
    assert ((filter_illegal_chars sys_platform (strip l)).1 = filtered)
      as Hfst by by rewrite Hf.
    assert ((filter_illegal_chars sys_platform (strip l)).2 = illegal)
      as Hsnd by by rewrite Hf.
    case_bool_decide as Hblank.
    { intros (skipped & line & -> & ? & ? & ?)%IH.
      exists (l :: skipped), line. split_and!; try done.
      constructor; [|done]. by rewrite Hblank. }
    destruct (negb (bool_decide (illegal = [])) && bool_decide (filtered = []))
      eqn:Hrej.
    { apply andb_true_iff in Hrej as [_ Hnil%bool_decide_eq_true].
      intros (skipped & line & -> & ? & ? & ?)%IH.
      exists (l :: skipped), line. split_and!; try done.
      constructor; [|done]. by rewrite Hfst. }
    intros [= <- <-]. exists [], l.
    assert (filtered ≠ []) as Hne.
    { apply andb_false_iff in Hrej
        as [Hclean%negb_false_iff%bool_decide_eq_true
           |Hfull%bool_decide_eq_false]; [|done].
      pose proof (filter_accepts_clean sys_platform (strip l)) as Hsame.
      rewrite Hf in Hsame. cbn in Hsame. by rewrite Hsame. }
    split_and!; [done|done|done|constructor]. }
  split_and!; [done| |apply filter_of_filtered|by exists skipped, line].
  apply Forall_forall. intros x. apply filtered_legal.
Qed.

(** X23. The index handed to the plan is never negative: the index prompt
    accepts the default, half the length of the sample name, on a blank
    line, or a number that [int] reads and that is not negative, and
    skips every other line; outside the middle position the index is
    zero and no line is read. *)
Theorem accepted_index_nonneg (int : str → option Z) (position : str)
    (target_list : list target) (inputs : list str) (i : Z)
    (rest : list str) :
  read_insert_index int position target_list inputs = Some (i, rest) →
  0 ≤ i
  ∧ (position ≠ pos_middle → i = 0 ∧ rest = inputs)
  ∧ (position = pos_middle →
     ∃ sample_target others skipped line,
       target_list = sample_target :: others
       ∧ inputs = skipped ++ line :: rest
       ∧ (strip line = [] ∧ i = len (sample_name sample_target) / 2
          ∨ int (strip line) = Some i)).
Proof.
  unfold read_insert_index. case_bool_decide as Hpos.
  2: { intros [= <- <-]. split_and!; done. }
  destruct target_list as [|sample_target others]; [done|].
  intros Hread.
  assert (0 ≤ i
          ∧ ∃ skipped line,
              inputs = skipped ++ line :: rest
              ∧ (strip line = [] ∧ i = len (sample_name sample_target) / 2
                 ∨ int (strip line) = Some i)) as [Hi Hex].
  { revert Hread. induction inputs as [|l inputs IH]; [done|].
    cbn [read_index]. cbv zeta.
    case_bool_decide as Hblank.
    { intros [= <- <-]. split.
      - apply Z.div_pos; [unfold len; lia|lia].
      - exists [], l. split; [done|]. by left. }
    destruct (int (strip l)) as [n|] eqn:Hint.
    - destruct (n <? 0) eqn:Hneg.
      + intros (? & skipped & line & -> & ?)%IH. split; [done|].
        by exists (l :: skipped), line.
      + intros [= <- <-]. apply Z.ltb_ge in Hneg. split; [done|].
        exists [], l. split; [done|]. by right.
    - intros (? & skipped & line & -> & ?)%IH. split; [done|].
      by exists (l :: skipped), line. }
  split_and!; [done|done|]. intros _.
  destruct Hex as (skipped & line & ? & ?).
  by exists sample_target, others, skipped, line.
Qed.

(** ** Files named one by one *)

Section listed_files.
Context {FS : Type} `{!FileSystem FS}.
Implicit Types (fs : FS) (l : list target).

(** X24. In file mode every target of the list form and of the
    single-path form is a validated file: it comes from a non-empty
    sub-spec, the input itself or one of its comma-separated parts with
    the blanks around it removed, that resolved to a path which, in the
    state the resolver started in, exists, is a regular file and could be
    opened; the target holds the path read back from the text of the
    resolved path. *)
Theorem listed_files_valid (input_path : str) fs fs' l :
  get_target_list input_path mode_file fs = (fs', inr l) →
  contains input_path 44%N = true ∨ contains input_path 42%N = false →
  ∀ t, t ∈ l →
    ∃ p q,
      (p = input_path ∨ p ∈ strip <$> split 44%N input_path)
      ∧ p ≠ []
      ∧ fs_resolve fs (pathlib.of_str p) = inr q
      ∧ t = mkTarget (pathlib.of_str (pathlib.to_str q)) file
      ∧ fs_exists fs q = true ∧ fs_is_file fs q = true
      ∧ fs_open_rb fs q = inr tt.
Proof.
  intros Hrun Hform t Ht. unfold get_target_list in Hrun. cbn in Hrun.
  destruct (contains input_path 44%N) eqn:Hcomma.
  - apply bind_inr in Hrun as (tl & fs1 & Hloop & Hrun).
    apply (dedup_targets_elem_of _ _ _ _ _ Hrun) in Ht.
    match type of Hloop with
    | for_each _ ?body _ = _ =>
        assert (∀ x, readonly (body x)) as Hro
    end.
    { intros p. apply readonly_bind; [apply validate_file_readonly|].
      intros [?|?]; apply readonly_ret. }
    destruct (for_each_readonly_elem _ _ _ _ _ Hro Hloop t Ht)
      as (p & zs & Hp & Hbody & Hz).
    exists p. run_cases Hbody;
      repeat match goal with
        | H : _ ∈ [] |- _ => by apply elem_of_nil in H
        | H : _ ∈ [_] |- _ => apply list_elem_of_singleton in H as ->
        | H : bool_decide _ = false |- _ => apply bool_decide_eq_false in H
        | H : negb _ = false |- _ => apply negb_false_iff in H
        | u : () |- _ => destruct u
        end.
    eexists. split_and!; try done. by right.
  - destruct Hform as [?|Hstar]; [done|]. rewrite Hstar in Hrun.
    apply bind_inr in Hrun as ([d|s] & fs1 & Hval & Hrun).
    { apply ret_inr in Hrun as ->. by apply elem_of_nil in Ht. }
    apply (dedup_targets_elem_of _ _ _ _ _ Hrun) in Ht.
    apply list_elem_of_singleton in Ht as ->.
    exists input_path. run_cases Hval;
      repeat match goal with
        | H : bool_decide _ = false |- _ => apply bool_decide_eq_false in H
        | H : negb _ = false |- _ => apply negb_false_iff in H
        | u : () |- _ => destruct u
        end.
    eexists. split_and!; try done. by left.
Qed.

End listed_files.

(** ** More runs on the small file system *)

Lemma no_success_no_change_witness :
  let st := rename_core_execute sim.data
              [plan_entry sim.data pos_end (py "_v2") 0
                 (sim.file_target "/data/c.txt")]
              (py "2024-01-01 00:00:00") (py "operator") pos_end 0 in
  exec_fs st = sim.data ∧ log_records st = [] ∧ fail_count st = 1.
Proof.
  cbv zeta.
  destruct (no_success_no_change sim.data (py "2024-01-01 00:00:00")
              (py "operator") pos_end 0
              [plan_entry sim.data pos_end (py "_v2") 0
                 (sim.file_target "/data/c.txt")]) as [Hnone Hflag].
  apply Hnone, Hflag. by repeat constructor.
Defined.

Lemma log_content_round_trip_witness :
  let st := rename_core_execute sim.data
              [plan_entry sim.data pos_end (py "_v2") 0
                 (sim.file_target "/data/a.txt");
               plan_entry sim.data pos_end (py "_v2") 0
                 (sim.file_target "/data/notes.txt")]
              (py "2024-01-01 00:00:00") (py "operator") pos_end 0 in
  length (split 10%N (log_content (log_records st))) = 2%nat.
Proof.
  cbv zeta.
  destruct (log_content_round_trip sim.data
              [plan_entry sim.data pos_end (py "_v2") 0
                 (sim.file_target "/data/a.txt");
               plan_entry sim.data pos_end (py "_v2") 0
                 (sim.file_target "/data/notes.txt")]
              (py "2024-01-01 00:00:00") (py "operator") pos_end 0)
    as [Hsplit _];
    [refine (bool_decide_unpack _ _); by vm_compute..|].
  rewrite Hsplit. by vm_compute.
Defined.

Lemma accepted_content_usable_witness :
  read_content (py "win32") [py "   "; py "?*"; py " v:2 "; py "x"]
  = Some (py "v2", [py "x"])
  ∧ filter_illegal_chars (py "win32") (py "v2") = (py "v2", []).
Proof.
  split; [by vm_compute|].
  by apply (accepted_content_usable (py "win32")
              [py "   "; py "?*"; py " v:2 "; py "x"] (py "v2") [py "x"]).
Defined.

Lemma accepted_index_nonneg_witness :
  read_insert_index decimal pos_middle [sim.file_target "/data/notes.txt"]
    [py "two"; py " 3 "] = Some (3, [])
  ∧ 0 ≤ 3.
Proof.
  split; [by vm_compute|].
  by apply (accepted_index_nonneg decimal pos_middle
              [sim.file_target "/data/notes.txt"] [py "two"; py " 3 "] 3 []).
Defined.

Lemma listed_files_valid_witness :
  ∃ fs' l,
    get_target_list (py "/data/a.txt, /data/notes.txt") mode_file sim.data
    = (fs', inr l)
    ∧ ∀ t, t ∈ l → ∃ q, fs_is_file sim.data q = true
                       ∧ t = mkTarget (pathlib.of_str (pathlib.to_str q)) file.
Proof.
  eexists _, _. split; [by vm_compute|]. intros t Ht.
  edestruct (listed_files_valid (py "/data/a.txt, /data/notes.txt") sim.data)
    as (p & q & _ & _ & _ & Heq & _ & Hfile & _); [| |exact Ht|].
  - by vm_compute.
  - by left.
  - by exists q.
Defined.

(** ** A name joined back to its folder *)

Lemma joinpath_parent_name (p : Path) :
  pathlib.wf p → pathlib.tail p ≠ [] →
  pathlib.joinpath (pathlib.parent p) (pathlib.name p) = p.
Proof.
  intros Hwf Htl.
  destruct (name_wf _ Hwf) as [[? _]|(_ & Hne & Hnd & Hsl)]; [done|].
  rewrite joinpath_component by done.
  destruct p as [r t]. unfold pathlib.parent, pathlib.name in *. cbn in *.
  destruct t as [|x t]; [done|]. cbn [pathlib.root pathlib.tail].
  by rewrite <- app_removelast_last.
Qed.

Section own_name.
Context {FS : Type} `{!FileSystem FS}.

(** X25. Renaming an entry to its own name is seen as a collision with
    itself: for a path with a name, the parent joined with the name is the
    path again, so the duplicate check on the own name answers whether the
    entry exists, and an entry planned with empty content is flagged
    exactly when the target exists. *)
Theorem own_name_collides (fs : FS) (p : Path) (position : str) (i : Z)
    (k : target_type) :
  pathlib.wf p → pathlib.tail p ≠ [] →
  pathlib.joinpath (pathlib.parent p) (pathlib.name p) = p
  ∧ check_duplicate_name fs p (pathlib.name p) = fs_exists fs p
  ∧ new_path (plan_entry fs position [] i (mkTarget p k)) = p
  ∧ duplicate (plan_entry fs position [] i (mkTarget p k)) = fs_exists fs p.
Proof.
  intros Hwf Htl. pose proof (joinpath_parent_name p Hwf Htl) as Hjoin.
  unfold plan_entry, check_duplicate_name. cbn.
  rewrite generate_new_name_nil. cbn. by rewrite Hjoin.
Qed.

End own_name.

Lemma own_name_collides_witness :
  duplicate (plan_entry sim.data pos_middle [] 1 (sim.file_target "/data/a.txt"))
  = true.
Proof.
  destruct (own_name_collides sim.data (pathlib.of_str (py "/data/a.txt"))
              pos_middle 1 file) as (_ & _ & _ & Hdup);
    [apply of_str_wf|by vm_compute|].
  etrans; [exact Hdup|by vm_compute].
Defined.

(** ** Names that stay apart *)

Lemma insert_content_inj (position c : str) (i : Z) (s1 s2 : str) :
  insert_content position c i s1 = insert_content position c i s2 → s1 = s2.
Proof.
  intros Heq.
  assert (length s1 = length s2) as Hlen.
  { apply (f_equal length) in Heq. rewrite !insert_content_length in Heq. lia. }
  revert Heq. unfold insert_content. repeat case_bool_decide.
  - by intros ?%app_inv_head.
  - by intros ?%app_inv_tail.
  - unfold slice_to, slice_from, len. rewrite Hlen.
    set (k := slice_index (length s2) _).
    intros [H1 H2]%app_inj_1; [|by rewrite !length_take, Hlen].
    apply app_inv_head in H2.
    by rewrite <- (take_drop k s1), <- (take_drop k s2), H1, H2.
Qed.

(** X26. Different names stay different: for one position, content and
    index, two folders with different names get different new names, and
    so do two files with the same extension. *)
Theorem new_names_stay_apart (p1 p2 : Path) (position c : str) (i : Z) :
  (generate_new_name (mkTarget p1 folder) position c i
   = generate_new_name (mkTarget p2 folder) position c i →
   pathlib.name p1 = pathlib.name p2)
  ∧ (pathlib.suffix p1 = pathlib.suffix p2 →
     generate_new_name (mkTarget p1 file) position c i
     = generate_new_name (mkTarget p2 file) position c i →
     pathlib.name p1 = pathlib.name p2).
Proof.
  unfold generate_new_name. cbn. split.
  - apply insert_content_inj.
  - intros Hs Heq. rewrite Hs in Heq.
    apply app_inv_tail, insert_content_inj in Heq.
    by rewrite <- (path_stem_suffix p1), <- (path_stem_suffix p2), Hs, Heq.
Qed.

Lemma new_names_stay_apart_witness :
  generate_new_name (sim.file_target "/data/a.txt") pos_end (py "t.t") 0
  ≠ generate_new_name (sim.file_target "/data/b.txt") pos_end (py "t.t") 0.
Proof.
  intros Heq.
  apply (proj2 (new_names_stay_apart (pathlib.of_str (py "/data/a.txt"))
                  (pathlib.of_str (py "/data/b.txt")) pos_end (py "t.t") 0))
    in Heq; [by vm_compute in Heq|by vm_compute].
Defined.

(** X27. An index beyond the name falls back on the default of the index
    prompt: in the middle position every index at or beyond the length of
    the transformed name gives the name that half this length gives. *)
Theorem out_of_range_is_default (t : target) (c : str) (i : Z) :
  let s := match type t with
           | folder => pathlib.name (path t)
           | file => pathlib.stem (path t)
           end in
  len s ≤ i →
  generate_new_name t pos_middle c i
  = generate_new_name t pos_middle c (len s / 2).
Proof.
  cbv zeta. intros Hi.
  assert (∀ s, len s ≤ i →
               insert_content pos_middle c i s
               = insert_content pos_middle c (len s / 2) s) as Hins.
  { intros s Hs. rewrite insert_content_middle_clamped by done.
    destruct (decide (s = [])) as [->|Hne]; [done|].
    assert (0 < len s) by (destruct s; [done|unfold len; cbn; lia]).
    rewrite insert_content_middle_in_range
      by (split; [apply Z.div_pos; lia|apply Z.div_lt; lia]).
    unfold len. by rewrite <- (Nat2Z.inj_div _ 2), Nat2Z.id. }
  unfold generate_new_name. destruct (type t); by rewrite Hins.
Qed.

Lemma out_of_range_is_default_witness :
  generate_new_name (sim.file_target "/data/notes.txt") pos_middle (py "_") 99
  = py "no_tes.txt".
Proof.
  rewrite (out_of_range_is_default (sim.file_target "/data/notes.txt")
             (py "_") 99); by vm_compute.
Defined.

(** X28. The position prompt accepts one of the three positions only: the
    accepted position is the first line that, with the blanks around it
    removed, is the word for start, end or middle, and the lines before
    it are none of them. *)
Theorem accepted_position_known (inputs : list str) (position : str)
    (rest : list str) :
  read_position inputs = Some (position, rest) →
  (position = pos_start ∨ position = pos_end ∨ position = pos_middle)
  ∧ ∃ skipped line,
      inputs = skipped ++ line :: rest
      ∧ position = strip line
      ∧ Forall (λ l, strip l ∉ [pos_start; pos_end; pos_middle]) skipped.
Proof.
  induction inputs as [|l inputs IH]; [done|]. cbn [read_position]. cbv zeta.
  case_bool_decide as Hin.
  - intros [= <- <-]. split.
    + rewrite !elem_of_cons, elem_of_nil in Hin. tauto.
    + exists [], l. split_and!; [done|done|constructor].
  - intros (Hpos & skipped & line & -> & -> & Hsk)%IH. split; [done|].
    exists (l :: skipped), line. split_and!; [done|done|by constructor].
Qed.

Lemma accepted_position_known_witness :
  read_position [py "top"; [32; 26411; 23614; 32]%N; py "x"]
  = Some (pos_end, [py "x"])
  ∧ (pos_end = pos_start ∨ pos_end = pos_end ∨ pos_end = pos_middle).
Proof.
  split; [by vm_compute|].
  by apply (accepted_position_known
              [py "top"; [32; 26411; 23614; 32]%N; py "x"] pos_end [py "x"]).
Defined.
